(** * NumericInput.vue: sanitising, formatting, limit checking and caret
      tracking of the numeric text field

    The component [src/components/NumericInput.vue] is embedded as pure
    functions over an explicit component state.  The JavaScript primitives
    it calls ([String.prototype.replace] with a global character-class
    pattern, [indexOf], [slice], [endsWith], [Number], [Number.isFinite])
    are modelled in [Module JS] after ECMAScript; the component itself is
    [Module NumericInput]. *)

From Stdlib Require Import String Ascii.
From Stdlib Require Import List ZArith NArith Lia Bool.
From Stdlib Require Import Floats.SpecFloat.
Import ListNotations.

Local Open Scope Z_scope.

(* ===================================================================== *)
(** ** JavaScript strings and numbers *)
(* ===================================================================== *)

Module JS.

(** A JavaScript string is a sequence of UTF-16 code units.  The code unit
    is kept as a number rather than an 8-bit [ascii], because the class
    [\s] used by the component has members above 255. *)
Definition char := N.
Definition jsstring := list char.

(** Literals: [str "1 234"] is the code-unit sequence of an ASCII literal. *)
Definition str (s : string) : jsstring :=
  List.map N_of_ascii (list_ascii_of_string s).

Definition SPACE : char := 32%N.
Definition DOT : char := 46%N.
Definition COMMA : char := 44%N.

Definition eqc (a b : char) : bool := N.eqb a b.

(** [\d]: the ten ASCII digits (no [u]/[i] flag is used by the source). *)
Definition isDigit (c : char) : bool := (N.leb 48 c && N.leb c 57)%bool.

(** [\w], used by the assertion [\B]: [A-Za-z0-9_]. *)
Definition isWordChar (c : char) : bool :=
  (isDigit c || (N.leb 65 c && N.leb c 90) || (N.leb 97 c && N.leb c 122)
   || N.eqb c 95)%bool.

(** [\s], which is also ECMAScript's StrWhiteSpaceChar: WhiteSpace and
    LineTerminator code points. *)
Definition isWhiteSpace (c : char) : bool :=
  (N.eqb c 9 || N.eqb c 10 || N.eqb c 11 || N.eqb c 12 || N.eqb c 13
   || N.eqb c 32 || N.eqb c 160 || N.eqb c 5760
   || (N.leb 8192 c && N.leb c 8202)
   || N.eqb c 8232 || N.eqb c 8233 || N.eqb c 8239 || N.eqb c 8287
   || N.eqb c 12288 || N.eqb c 65279)%bool.

Definition isDot (c : char) : bool := eqc c DOT.
Definition isComma (c : char) : bool := eqc c COMMA.
Definition isSpace (c : char) : bool := eqc c SPACE.

(** [s.replace(/C/g, rep)] for a pattern [C] matching one code unit: every
    code unit in the class is replaced by [rep], the others are kept. *)
Definition replaceEach (p : char -> bool) (rep : jsstring) (s : jsstring)
  : jsstring :=
  List.flat_map (fun c => if p c then rep else [c]) s.

(** [(s.match(/C/g) || []).length]: the number of code units in the class. *)
Definition countMatches (p : char -> bool) (s : jsstring) : nat :=
  List.length (List.filter p s).

(** [s.indexOf(c)] for a one-unit search string; [-1] when absent. *)
Fixpoint indexOf (c : char) (s : jsstring) : Z :=
  match s with
  | [] => -1
  | x :: r =>
      if eqc x c then 0
      else let i := indexOf c r in if i =? -1 then -1 else i + 1
  end.

(** [s.slice(start, end)]; [end_ = None] is the one-argument call.  Negative
    positions count from the end of the string, and positions are clamped
    to [0 .. length]. *)
Definition clampIndex (len i : Z) : Z :=
  if i <? 0 then Z.max (len + i) 0 else Z.min i len.

Definition slice (s : jsstring) (start : Z) (end_ : option Z) : jsstring :=
  let len := Z.of_nat (List.length s) in
  let from := clampIndex len start in
  let to := match end_ with Some e => clampIndex len e | None => len end in
  List.firstn (Z.to_nat (to - from)) (List.skipn (Z.to_nat from) s).

(** [s.endsWith(c)] for a one-unit search string. *)
Definition endsWith (c : char) (s : jsstring) : bool :=
  match List.rev s with
  | x :: _ => eqc x c
  | [] => false
  end.

Fixpoint eqs (a b : jsstring) : bool :=
  match a, b with
  | [], [] => true
  | x :: a', y :: b' => (eqc x y && eqs a' b')%bool
  | _, _ => false
  end.

(** *** Numbers *)

(** A Number is an IEEE 754 binary64 value: [prec = 53], [emax = 1024]. *)
Definition number := spec_float.
Definition prec : Z := 53.
Definition emax : Z := 1024.

Definition NaN : number := S754_nan.
Definition posZero : number := S754_zero false.
Definition Infinity : number := S754_infinity false.

(** [Number.isFinite]. *)
Definition isFinite (x : number) : bool :=
  match x with
  | S754_zero _ | S754_finite _ _ _ => true
  | S754_infinity _ | S754_nan => false
  end.

(** [a === b] and [a > b] on Numbers. *)
Definition strictEquals (a b : number) : bool := SFeqb a b.
Definition greaterThan (a b : number) : bool := SFltb b a.

(** The Number nearest to the rational [num / den] ([0 <= num], [0 < den]),
    ties to even, with sign [neg]. *)
Definition roundRational (neg : bool) (num den : Z) : number :=
  match num, den with
  | Zpos n, Zpos d =>
      SFdiv prec emax (S754_finite neg n 0) (S754_finite false d 0)
  | Z0, Zpos _ => S754_zero neg
  | _, _ => S754_nan
  end.

(** [m * 10 ^ e10], rounded. *)
Definition scaled (neg : bool) (m e10 : Z) : number :=
  if 0 <=? e10 then roundRational neg (m * 10 ^ e10) 1
  else roundRational neg m (10 ^ (- e10)).

Definition digitValue (c : char) : Z := Z.of_N c - 48.

(** The mathematical value of a run of decimal digits. *)
Definition decValue (s : jsstring) : Z :=
  List.fold_left (fun a c => 10 * a + digitValue c) s 0.

Definition allDigits (s : jsstring) : bool := List.forallb isDigit s.

Definition nonEmpty (s : jsstring) : bool :=
  match s with [] => false | _ => true end.

(** [splitAt p s]: the part before the first code unit in the class [p],
    and the part after it when there is one. *)
Fixpoint splitAt (p : char -> bool) (s : jsstring)
  : jsstring * option jsstring :=
  match s with
  | [] => ([], None)
  | c :: r =>
      if p c then ([], Some r)
      else let '(a, b) := splitAt p r in (c :: a, b)
  end.

Definition isExponentIndicator (c : char) : bool :=
  (N.eqb c 101 || N.eqb c 69)%bool.

(** ExponentPart without its indicator: an optional sign and at least one
    digit. *)
Definition exponentValue (s : jsstring) : option Z :=
  let '(neg, ds) :=
    match s with
    | c :: r =>
        if N.eqb c 43 then (false, r)
        else if N.eqb c 45 then (true, r)
        else (false, s)
    | [] => (false, s)
    end in
  if (allDigits ds && nonEmpty ds)%bool
  then Some (if neg then - decValue ds else decValue ds)
  else None.

(** StrUnsignedDecimalLiteral: [Infinity], or digits with an optional
    fraction and an optional exponent, at least one digit in the mantissa. *)
Definition unsignedDecimal (neg : bool) (t : jsstring) : number :=
  if eqs t (str "Infinity") then S754_infinity neg
  else
    let '(mant, expo) := splitAt isExponentIndicator t in
    let '(ip, fp) := splitAt isDot mant in
    let fd := match fp with Some f => f | None => [] end in
    if (allDigits ip && allDigits fd && (nonEmpty ip || nonEmpty fd))%bool
    then
      let m := decValue (ip ++ fd) in
      let k := Z.of_nat (List.length fd) in
      match expo with
      | None => scaled neg m (- k)
      | Some e =>
          match exponentValue e with
          | Some x => scaled neg m (x - k)
          | None => NaN
          end
      end
    else NaN.

(** NonDecimalIntegerLiteral: [0x], [0o], [0b] prefixes (either case). *)
Definition radixDigit (radix : Z) (c : char) : option Z :=
  let v :=
    if isDigit c then Z.of_N c - 48
    else if (N.leb 97 c && N.leb c 102)%bool then Z.of_N c - 87
    else if (N.leb 65 c && N.leb c 70)%bool then Z.of_N c - 55
    else radix in
  if v <? radix then Some v else None.

Fixpoint radixValue (radix : Z) (acc : Z) (s : jsstring) : option Z :=
  match s with
  | [] => Some acc
  | c :: r =>
      match radixDigit radix c with
      | Some v => radixValue radix (radix * acc + v) r
      | None => None
      end
  end.

Definition nonDecimal (t : jsstring) : option number :=
  match t with
  | c :: p :: ds =>
      let radix :=
        if negb (N.eqb c 48 && nonEmpty ds) then None
        else if (N.eqb p 120 || N.eqb p 88)%bool then Some 16
        else if (N.eqb p 111 || N.eqb p 79)%bool then Some 8
        else if (N.eqb p 98 || N.eqb p 66)%bool then Some 2
        else None in
      match radix with
      | Some rx =>
          Some match radixValue rx 0 ds with
               | Some v => roundRational false v 1
               | None => NaN
               end
      | None => None
      end
  | _ => None
  end.

Fixpoint trimStart (s : jsstring) : jsstring :=
  match s with
  | c :: r => if isWhiteSpace c then trimStart r else s
  | [] => []
  end.

Definition trim (s : jsstring) : jsstring :=
  List.rev (trimStart (List.rev (trimStart s))).

(** [Number(s)] on a string (StringToNumber): surrounding white space is
    ignored, the empty string is [+0], a string outside the
    StringNumericLiteral grammar is [NaN], and a literal yields the Number
    nearest to its mathematical value.  (ECMAScript lets an engine round a
    literal of more than 20 significant digits from its first 20; the
    model rounds the exact value, as current engines do.) *)
Definition Number (s : jsstring) : number :=
  let t := trim s in
  match t with
  | [] => posZero
  | c :: r =>
      match nonDecimal t with
      | Some x => x
      | None =>
          if N.eqb c 43 then unsignedDecimal false r
          else if N.eqb c 45 then unsignedDecimal true r
          else unsignedDecimal false t
      end
  end.

(** The code unit of an ASCII character literal. *)
Definition chr (a : string) : char :=
  match a with
  | String c _ => N_of_ascii c
  | EmptyString => 0%N
  end.

(** [s.includes(c)] for a one-unit search string. *)
Definition includes (c : char) (s : jsstring) : bool :=
  List.existsb (fun x => eqc x c) s.

End JS.

(* ===================================================================== *)
(** ** The component *)
(* ===================================================================== *)

Module NumericInput.
Import JS.

Inductive InputType := integer | decimal.

Module LimitType.
Inductive t := none | max | maxLength.
End LimitType.

(** The props of the component that the script reads.  [maxDecimals] only
    reaches [slice], which converts its argument to an integer, and
    [maxLength] is a digit count: both are integers here.  An absent
    optional prop ([undefined]) is [None]. *)
Record Props := mkProps {
  modelValue : option number;
  type : InputType;
  disabled : bool;
  max : option number;
  maxLength : option Z;
  maxDecimals : Z
}.

(** [withDefaults]: [type: 'decimal'], [maxDecimals: 2]. *)
Definition defaultProps : Props :=
  {| modelValue := None; type := decimal; disabled := false;
     max := None; maxLength := None; maxDecimals := 2 |}.

(** Events of [defineEmits]. *)
Inductive Emit :=
| update_modelValue (value : option number)
| focus
| blur.

(** The text field of the template ([inputRef]): its text and caret. *)
Record HTMLInputElement := mkInput {
  value : jsstring;
  selectionStart : option nat
}.

(** The reactive state of the script, the field it renders into, the
    events emitted so far (oldest first) and whether a width measurement
    is pending ([widthRaf]). *)
Record State := mkState {
  displayValue : jsstring;
  isFocused : bool;
  hasError : bool;
  input : HTMLInputElement;
  emitted : list Emit;
  widthUpdatePending : bool
}.

(** The object returned by [sanitize]. *)
Record Sanitized := mkSanitized {
  cleaned : jsstring;
  numericValue : option number
}.

(** [input.value = v]: when the text changes, the caret moves to its
    end. *)
Definition setValue (v : jsstring) (i : HTMLInputElement)
  : HTMLInputElement :=
  {| value := v;
     selectionStart :=
       if eqs (value i) v then selectionStart i
       else Some (List.length v) |}.

(** [input.setSelectionRange(p, p)]. *)
Definition setSelectionRange (p : nat) (i : HTMLInputElement)
  : HTMLInputElement :=
  {| value := value i; selectionStart := Some p |}.

Definition limitType (props : Props) : LimitType.t :=
  match max props with
  | Some _ => LimitType.max
  | None =>
      match maxLength props with
      | Some _ => LimitType.maxLength
      | None => LimitType.none
      end
  end.

(** [str.replace(/\B(?=(\d{3})+(?!\d))/g, ' ')].  The pattern matches the
    empty string at a position when [\B] holds there and the digits that
    start there can be split into one or more groups of three followed by
    a non-digit or the end, that is, when the maximal run of digits
    starting at the position has a positive length divisible by three.
    As the next code unit is then a digit (a word character), [\B] holds
    exactly when the previous code unit exists and is a word character. *)
Fixpoint digitRun (s : jsstring) : nat :=
  match s with
  | c :: r => if isDigit c then S (digitRun r) else O
  | [] => O
  end.

Definition groupStart (s : jsstring) : bool :=
  let n := digitRun s in
  (negb (Nat.eqb n 0) && Nat.eqb (Nat.modulo n 3) 0)%bool.

Fixpoint insertSpaces (prevIsWord : bool) (s : jsstring) : jsstring :=
  match s with
  | [] => []
  | c :: r =>
      (if (prevIsWord && groupStart s)%bool then [SPACE] else [])
      ++ c :: insertSpaces (isWordChar c) r
  end.

Definition formatWithSpaces (s : jsstring) : jsstring :=
  insertSpaces false s.

Definition parseDisplay (s : jsstring) : option number :=
  let v := replaceEach isComma [DOT] (replaceEach isWhiteSpace [] s) in
  if (eqs v [] || eqs v [DOT])%bool then None
  else
    let n := Number v in
    if isFinite n then Some n else None.

Definition scheduleWidthUpdate (st : State) : State :=
  {| displayValue := displayValue st; isFocused := isFocused st;
     hasError := hasError st; input := input st; emitted := emitted st;
     widthUpdatePending := true |}.

Definition emit (e : Emit) (st : State) : State :=
  {| displayValue := displayValue st; isFocused := isFocused st;
     hasError := hasError st; input := input st;
     emitted := emitted st ++ [e];
     widthUpdatePending := widthUpdatePending st |}.

Definition setIsFocused (b : bool) (st : State) : State :=
  {| displayValue := displayValue st; isFocused := b;
     hasError := hasError st; input := input st; emitted := emitted st;
     widthUpdatePending := widthUpdatePending st |}.

Definition setHasError (b : bool) (st : State) : State :=
  {| displayValue := displayValue st; isFocused := isFocused st;
     hasError := b; input := input st; emitted := emitted st;
     widthUpdatePending := widthUpdatePending st |}.

Definition setDisplayValue (d : jsstring) (st : State) : State :=
  {| displayValue := d; isFocused := isFocused st;
     hasError := hasError st; input := input st; emitted := emitted st;
     widthUpdatePending := widthUpdatePending st |}.

Definition setInput (i : HTMLInputElement) (st : State) : State :=
  {| displayValue := displayValue st; isFocused := isFocused st;
     hasError := hasError st; input := i; emitted := emitted st;
     widthUpdatePending := widthUpdatePending st |}.

Definition onFocus (st : State) : State :=
  emit focus (setIsFocused true st).

Definition onBlur (st : State) : State :=
  let st := setHasError false (setIsFocused false st) in
  let st :=
    if endsWith DOT (displayValue st)
    then scheduleWidthUpdate
           (setDisplayValue (slice (displayValue st) 0 (Some (-1))) st)
    else st in
  emit blur st.

Definition getDigitCount (s : jsstring) : nat :=
  List.length (replaceEach (fun c => negb (isDigit c)) [] s).

Definition sanitize (props : Props) (raw : jsstring) : Sanitized :=
  let cleaned :=
    replaceEach (fun c => negb (isDigit c || isDot c)) []
      (replaceEach isComma [DOT] raw) in
  let cleaned :=
    match type props with
    | integer => replaceEach isDot [] cleaned
    | decimal =>
        let dotIndex := indexOf DOT cleaned in
        if negb (dotIndex =? -1) then
          let beforeDot := slice cleaned 0 (Some dotIndex) in
          let afterDotRaw :=
            replaceEach isDot [] (slice cleaned (dotIndex + 1) None) in
          let afterDot := slice afterDotRaw 0 (Some (maxDecimals props)) in
          beforeDot ++ [DOT] ++ afterDot
        else cleaned
    end in
  let numericValue :=
    if (negb (eqs cleaned []) && negb (eqs cleaned [DOT]))%bool then
      let n := Number cleaned in
      if isFinite n then Some n else None
    else None in
  {| cleaned := cleaned; numericValue := numericValue |}.

(** [intPartRaw || ''] is [intPartRaw] itself (the only falsy string is
    the empty one), and [decPart ?? ''] is the [match] on [decPart]. *)
Definition formatFromCleaned (cleaned : jsstring) : jsstring :=
  if eqs cleaned [] then []
  else
    let dotIndex := indexOf DOT cleaned in
    let hasDot := negb (dotIndex =? -1) in
    let intPartRaw :=
      if hasDot then slice cleaned 0 (Some dotIndex) else cleaned in
    let decPart :=
      if hasDot then Some (slice cleaned (dotIndex + 1) None) else None in
    let formattedInt := formatWithSpaces intPartRaw in
    if hasDot
    then formattedInt ++ [DOT] ++ match decPart with Some d => d | None => [] end
    else formattedInt.

Definition checkLimit (props : Props) (cleaned : jsstring)
    (numericValue : option number) : bool :=
  match limitType props, max props, maxLength props with
  | LimitType.max, Some m, _ =>
      match numericValue with
      | Some n => greaterThan n m
      | None => false
      end
  | LimitType.maxLength, _, Some l =>
      Z.of_nat (getDigitCount cleaned) >? l
  | _, _, _ => false
  end.

(** The caret computation of the [nextTick] callback of [onInput]. *)
Definition charsBeforeCursor (oldFormatted : jsstring) (cursorPos : nat)
  : nat :=
  let oldSpacesBefore :=
    countMatches isWhiteSpace
      (slice oldFormatted 0 (Some (Z.of_nat cursorPos))) in
  (cursorPos - oldSpacesBefore)%nat.

(** The [for] loop: [rest] is [newFormatted] from index [i] on, so the
    loop ends when [rest] is empty or [charCount] has reached
    [charsBefore]. *)
Fixpoint caretLoop (rest : jsstring) (i newCursorPos charCount : nat)
    (charsBefore : nat) : nat :=
  match rest with
  | [] => newCursorPos
  | c :: rest' =>
      if (charCount <? charsBefore)%nat then
        caretLoop rest' (S i) (i + 1)%nat
          (if negb (isSpace c) then S charCount else charCount)
          charsBefore
      else newCursorPos
  end.

Definition newCursorPos (oldFormatted : jsstring) (cursorPos : nat)
    (newFormatted : jsstring) : nat :=
  caretLoop newFormatted 0 0 0 (charsBeforeCursor oldFormatted cursorPos).

(** [onInput], run on the field's current text and caret, together with
    the [nextTick] callback it schedules: by then the template binding
    [:value="displayValue"] has been rendered into the field. *)
Definition onInput (props : Props) (st : State) : State :=
  if disabled props then st
  else
    let cursorPos :=
      match selectionStart (input st) with Some n => n | None => O end in
    let oldFormatted := displayValue st in
    let '{| cleaned := cleaned; numericValue := numericValue |} :=
      sanitize props (value (input st)) in
    if checkLimit props cleaned numericValue then
      let st := setHasError true st in
      setInput (setValue (displayValue st) (input st)) st
    else
      let st := setHasError false st in
      let st := setDisplayValue (formatFromCleaned cleaned) st in
      let st := emit (update_modelValue numericValue) st in
      let st := scheduleWidthUpdate st in
      let st := setInput (setValue (displayValue st) (input st)) st in
      let pos := newCursorPos oldFormatted cursorPos (displayValue st) in
      setInput (setSelectionRange pos (input st)) st.

(** [value] of type [number | null | undefined], as the [modelValue] prop
    and the argument of its watcher have it. *)
Inductive ModelValue :=
| mv_undefined
| mv_null
| mv_number (n : number).

(** [formatNumber].  [value.toString()] (Number::toString) is taken as the
    parameter [toString].  [str.split('.')] cuts at every dot and the
    destructuring keeps the first two pieces: [decPart] is what lies
    between the first dot and the next one. *)
Definition formatNumber (toString : number -> jsstring) (v : ModelValue)
  : jsstring :=
  match v with
  | mv_undefined | mv_null => []
  | mv_number n =>
      let s := toString n in
      let '(intPartRaw, rest) := splitAt isDot s in
      let decPart :=
        match rest with
        | Some r => Some (fst (splitAt isDot r))
        | None => None
        end in
      let formattedInt := formatWithSpaces intPartRaw in
      match decPart with
      | Some d => formattedInt ++ [DOT] ++ d
      | None => formattedInt
      end
  end.

(** [newValue !== parsed], with [parsed : number | null]. *)
Definition strictNotEquals (newValue : ModelValue) (parsed : option number)
  : bool :=
  match newValue, parsed with
  | mv_null, None => false
  | mv_number n, Some m => negb (strictEquals n m)
  | _, _ => true
  end.

(** The callback of [watch(() => props.modelValue, ...)]. *)
Definition watchModelValue (toString : number -> jsstring)
    (newValue : ModelValue) (st : State) : State :=
  if isFocused st then st
  else
    let parsed := parseDisplay (displayValue st) in
    if strictNotEquals newValue parsed then
      scheduleWidthUpdate
        (setDisplayValue (formatNumber toString newValue) st)
    else st.

(** The part of a [KeyboardEvent] that [onKeyDown] reads. *)
Record KeyboardEvent := mkKey {
  key : jsstring;
  ctrlKey : bool;
  metaKey : bool
}.

Definition allowedKeys : list jsstring :=
  [str "Backspace"; str "Delete"; str "ArrowLeft"; str "ArrowRight";
   str "Tab"; str "Home"; str "End"].

(** [/^\d$/.test(key)]: the key is exactly one digit. *)
Definition isOneDigit (k : jsstring) : bool :=
  match k with
  | [c] => isDigit c
  | _ => false
  end.

(** [onKeyDown]; the second component tells whether
    [event.preventDefault()] was called. *)
Definition onKeyDown (props : Props) (event : KeyboardEvent) (st : State)
  : State * bool :=
  if disabled props then (st, true)
  else if List.existsb (eqs (key event)) allowedKeys then
    (setHasError false st, false)
  else if (ctrlKey event || metaKey event)%bool then (st, false)
  else
    let isSeparator :=
      (eqs (key event) [DOT] || eqs (key event) [COMMA])%bool in
    match type props with
    | decimal =>
        if isSeparator then (st, includes DOT (displayValue st))
        else (st, negb (isOneDigit (key event)))
    | integer =>
        if isSeparator then (st, true)
        else (st, negb (isOneDigit (key event)))
    end.

End NumericInput.

(* ===================================================================== *)
(** ** Notions used to state the properties *)
(* ===================================================================== *)

Module Properties.
Import JS NumericInput.

(** The code units [sanitize] lets through. *)
Definition digitOrDot (c : char) : bool := (isDigit c || isDot c)%bool.

(** The sign bit of a Number is clear (so it is not [NaN], not [-0] and
    not negative). *)
Definition signClear (x : number) : bool :=
  match x with
  | S754_zero s | S754_infinity s | S754_finite s _ _ => negb s
  | S754_nan => false
  end.

(** [v === n] for [v : number | null]: [null] is never [===] a Number. *)
Definition strictEqualsNullable (v : option number) (n : number) : bool :=
  match v with
  | Some x => strictEquals x n
  | None => false
  end.

(** The first assignment of [sanitize]: commas become dots, then every
    code unit that is not a digit or a dot is dropped. *)
Definition normalized (raw : jsstring) : jsstring :=
  replaceEach (fun c => negb (isDigit c || isDot c)) []
    (replaceEach isComma [DOT] raw).

(** The last step of [sanitize]: the numeric value of a cleaned string. *)
Definition parseCleaned (c : jsstring) : option number :=
  if (negb (eqs c []) && negb (eqs c [DOT]))%bool then
    let n := Number c in
    if isFinite n then Some n else None
  else None.

(** The two forms of a cleaned string: digits, or digits, a dot and
    digits. *)
Inductive CleanedShape : jsstring -> Prop :=
| shape_digits (ds : jsstring) :
    allDigits ds = true -> CleanedShape ds
| shape_fraction (a b : jsstring) :
    allDigits a = true -> allDigits b = true ->
    CleanedShape (a ++ DOT :: b).

(** What follows the first dot of a string. *)
Definition fractionalPart (s : jsstring) : jsstring :=
  match snd (splitAt isDot s) with
  | Some f => f
  | None => []
  end.

(** Removing the grouping spaces from a display string. *)
Definition stripSpaces (s : jsstring) : jsstring := replaceEach isSpace [] s.

(** The [update:modelValue] events among the emitted ones. *)
Definition isUpdate (e : Emit) : bool :=
  match e with
  | update_modelValue _ => true
  | _ => false
  end.

(** The caret algorithm in the words of the specification:
    [charsBeforeCursor] is the number of non-space characters of the old
    display string before the old caret offset, and the new offset is
    reached by advancing through the new display string while fewer than
    [charsBeforeCursor] non-space characters have been passed. *)
Definition nonSpaceBefore (oldDisplay : jsstring) (offset : nat) : nat :=
  countMatches (fun c => negb (isSpace c)) (firstn offset oldDisplay).

Fixpoint advance (display : jsstring) (missing : nat) : nat :=
  match missing, display with
  | O, _ => O
  | _, [] => O
  | S m, c :: rest =>
      S (advance rest (if isSpace c then missing else m))
  end.

Definition caretSpec (oldDisplay : jsstring) (offset : nat)
    (newDisplay : jsstring) : nat :=
  advance newDisplay (nonSpaceBefore oldDisplay offset).

(** The field of the examples: [max = 100], display ["15"], and the user
    has typed [0] at the end. *)
Definition maxHundred (isDisabled : bool) : Props :=
  {| modelValue := None; type := decimal; disabled := isDisabled;
     max := Some (Number (str "100")); maxLength := None;
     maxDecimals := 2 |}.

Definition typingOverMax : State :=
  {| displayValue := str "15"; isFocused := true; hasError := false;
     input := {| value := str "150"; selectionStart := Some 3%nat |};
     emitted := [focus]; widthUpdatePending := false |}.

(** The digits of a string, in order. *)
Definition digitsOf (s : jsstring) : jsstring := List.filter isDigit s.

(** The number of non-space characters of a string. *)
Definition nonSpaceCount (s : jsstring) : nat :=
  countMatches (fun c => negb (isSpace c)) s.

(** A display string produced by [formatFromCleaned] from a cleaned
    string. *)
Definition WellFormedDisplay (d : jsstring) : Prop :=
  exists c, CleanedShape c /\ d = formatFromCleaned c.

(** The argument of the last [update:modelValue] emitted, if any. *)
Fixpoint lastUpdate (es : list Emit) : option (option number) :=
  match es with
  | [] => None
  | e :: rest =>
      match lastUpdate rest with
      | Some v => Some v
      | None =>
          match e with
          | update_modelValue v => Some v
          | _ => None
          end
      end
  end.

(** The values carried by the [update:modelValue] events. *)
Fixpoint updateValues (es : list Emit) : list (option number) :=
  match es with
  | [] => []
  | update_modelValue v :: rest => v :: updateValues rest
  | _ :: rest => updateValues rest
  end.

(** The user events the template listens to.  Before an [input] event is
    dispatched the browser has put the edited text and the caret into the
    field. *)
Inductive UserEvent :=
| user_focus
| user_blur
| user_input (text : jsstring) (caret : option nat)
| user_keydown (event : KeyboardEvent).

Definition dispatch (props : Props) (st : State) (e : UserEvent) : State :=
  match e with
  | user_focus => onFocus st
  | user_blur => onBlur st
  | user_input text caret =>
      onInput props
        (setInput {| value := text; selectionStart := caret |} st)
  | user_keydown event => fst (onKeyDown props event st)
  end.

Definition run (props : Props) (st : State) (es : list UserEvent) : State :=
  List.fold_left (dispatch props) es st.

(** An emitted value ([number | null]) as a [modelValue]. *)
Definition toModelValue (v : option number) : ModelValue :=
  match v with
  | Some n => mv_number n
  | None => mv_null
  end.

(** A value the field may emit: [null], or a finite Number with a clear
    sign bit that is not greater than [max] when [max] is configured. *)
Definition acceptableValue (props : Props) (v : option number) : Prop :=
  match v with
  | None => True
  | Some n =>
      isFinite n = true /\ signClear n = true /\
      match max props with
      | Some m => greaterThan n m = false
      | None => True
      end
  end.

(** A freshly mounted, empty field. *)
Definition emptyField : State :=
  {| displayValue := []; isFocused := false; hasError := false;
     input := {| value := []; selectionStart := Some 0%nat |};
     emitted := []; widthUpdatePending := false |}.

End Properties.

(* ===================================================================== *)
(** ** Facts about the string primitives *)
(* ===================================================================== *)

Module JSFacts.
Import JS.

Lemma eqc_eq (a b : char) : eqc a b = true <-> a = b.
Proof. unfold eqc. apply N.eqb_eq. Qed.

Lemma eqs_eq (a b : jsstring) : eqs a b = true <-> a = b.
Proof.
  revert b. induction a as [|x a IH]; intros [|y b]; simpl; split;
    try congruence; try reflexivity.
  - intros H. apply andb_true_iff in H as [Hx Ha].
    apply eqc_eq in Hx. apply IH in Ha. congruence.
  - intros H. injection H as -> ->. apply andb_true_iff. split.
    + now apply eqc_eq.
    + now apply IH.
Qed.

Lemma eqs_neq (a b : jsstring) : eqs a b = false <-> a <> b.
Proof.
  split.
  - intros H E. apply eqs_eq in E. congruence.
  - intros H. destruct (eqs a b) eqn:E; [|reflexivity].
    apply eqs_eq in E. contradiction.
Qed.

(** Removing a class is a filter; replacing it by one unit is a map. *)
Lemma replaceEach_remove (p : char -> bool) (s : jsstring) :
  replaceEach p [] s = filter (fun c => negb (p c)) s.
Proof.
  unfold replaceEach. induction s as [|c s IH]; simpl; [reflexivity|].
  rewrite IH. now destruct (p c).
Qed.

Lemma replaceEach_one (p : char -> bool) (d : char) (s : jsstring) :
  replaceEach p [d] s = map (fun c => if p c then d else c) s.
Proof.
  unfold replaceEach. induction s as [|c s IH]; simpl; [reflexivity|].
  rewrite IH. now destruct (p c).
Qed.

Lemma replaceEach_app (p : char -> bool) (rep a b : jsstring) :
  replaceEach p rep (a ++ b) = replaceEach p rep a ++ replaceEach p rep b.
Proof. unfold replaceEach. apply flat_map_app. Qed.

Lemma filter_all (p : char -> bool) (s : jsstring) :
  forallb p s = true -> filter p s = s.
Proof.
  induction s as [|c s IH]; simpl; [reflexivity|].
  intros H. apply andb_true_iff in H as [Hc Hs]. rewrite Hc, IH; auto.
Qed.

Lemma forallb_filter (p : char -> bool) (s : jsstring) :
  forallb p (filter p s) = true.
Proof.
  induction s as [|c s IH]; simpl; [reflexivity|].
  destruct (p c) eqn:E; simpl; [rewrite E|]; auto.
Qed.

Lemma forallb_imp (p q : char -> bool) (s : jsstring) :
  (forall c, p c = true -> q c = true) ->
  forallb p s = true -> forallb q s = true.
Proof.
  intros Hpq. induction s as [|c s IH]; simpl; [reflexivity|].
  intros H. apply andb_true_iff in H as [Hc Hs].
  rewrite (Hpq _ Hc), IH; auto.
Qed.

Lemma forallb_firstn (p : char -> bool) (n : nat) (s : jsstring) :
  forallb p s = true -> forallb p (firstn n s) = true.
Proof.
  revert n. induction s as [|c s IH]; intros [|n]; simpl; auto.
  intros H. apply andb_true_iff in H as [Hc Hs]. rewrite Hc; simpl; auto.
Qed.

(** [slice] at the positions the component uses. *)
Lemma slice_prefix (s : jsstring) (n : nat) :
  slice s 0 (Some (Z.of_nat n)) = firstn n s.
Proof.
  unfold slice, clampIndex. simpl.
  destruct (Z.ltb_spec (Z.of_nat n) 0) as [E|E]; [lia|]. clear E.
  replace (Z.min 0 (Z.of_nat (length s))) with 0 by lia. simpl.
  rewrite Z.sub_0_r.
  destruct (Nat.le_gt_cases n (length s)) as [H|H].
  - rewrite Z.min_l by lia. now rewrite Nat2Z.id.
  - rewrite Z.min_r by lia. rewrite Nat2Z.id.
    rewrite !firstn_all2; auto; lia.
Qed.

Lemma slice_suffix (s : jsstring) (n : nat) :
  slice s (Z.of_nat n) None = skipn n s.
Proof.
  unfold slice, clampIndex.
  destruct (Z.ltb_spec (Z.of_nat n) 0) as [E|E]; [lia|]. clear E.
  destruct (Nat.le_gt_cases n (length s)) as [H|H].
  - rewrite Z.min_l by lia. rewrite Nat2Z.id.
    apply firstn_all2. rewrite length_skipn. lia.
  - rewrite Z.min_r by lia. rewrite Nat2Z.id.
    rewrite !skipn_all2 by lia. now destruct (Z.to_nat _).
Qed.

Lemma slice_truncate (s : jsstring) (k : Z) :
  0 <= k -> slice s 0 (Some k) = firstn (Z.to_nat k) s.
Proof.
  intros Hk. rewrite <- (Z2Nat.id k) at 1 by assumption.
  apply slice_prefix.
Qed.

Lemma slice_drop_last (s : jsstring) (c : char) :
  slice (s ++ [c]) 0 (Some (-1)) = s.
Proof.
  unfold slice, clampIndex. simpl. rewrite length_app. simpl.
  replace (Z.min 0 _) with 0 by lia. simpl.
  replace (Z.to_nat _) with (length s) by lia.
  rewrite firstn_app, Nat.sub_diag, firstn_all. simpl. apply app_nil_r.
Qed.

(** A negative end position counts from the end of the string. *)
Lemma slice_from_end (s : jsstring) (k : Z) :
  k < 0 -> slice s 0 (Some k) = firstn (length s - Z.to_nat (- k)) s.
Proof.
  intros Hk. unfold slice, clampIndex.
  destruct (Z.ltb_spec k 0) as [E|E]; [|lia]. simpl.
  replace (Z.min 0 _) with 0 by lia. simpl. f_equal. lia.
Qed.

(** [indexOf]: absent, or the length of the prefix before the first
    occurrence. *)
Lemma indexOf_range (c : char) (s : jsstring) : -1 <= indexOf c s.
Proof.
  induction s as [|x s IH]; simpl; [lia|].
  destruct (eqc x c); [lia|]. destruct (indexOf c s =? -1); lia.
Qed.

Lemma indexOf_absent (c : char) (s : jsstring) :
  indexOf c s = -1 <-> forallb (fun x => negb (eqc x c)) s = true.
Proof.
  induction s as [|x s IH]; simpl; [tauto|].
  destruct (eqc x c); simpl.
  - split; [lia|discriminate].
  - destruct (indexOf c s =? -1) eqn:E.
    + apply Z.eqb_eq in E. tauto.
    + apply Z.eqb_neq in E. pose proof (indexOf_range c s).
      split; [lia|]. intros H'. apply IH in H'. contradiction.
Qed.

Lemma indexOf_found (c : char) (s : jsstring) :
  indexOf c s <> -1 ->
  exists a b,
    s = a ++ c :: b /\ forallb (fun x => negb (eqc x c)) a = true /\
    indexOf c s = Z.of_nat (length a).
Proof.
  induction s as [|x s IH]; simpl; [congruence|].
  destruct (eqc x c) eqn:Ex.
  - intros _. apply eqc_eq in Ex. subst x. exists [], s. auto.
  - destruct (indexOf c s =? -1) eqn:E; [congruence|].
    apply Z.eqb_neq in E. intros _.
    destruct (IH E) as (a & b & -> & Ha & Hi).
    exists (x :: a), b. simpl. rewrite Ex, Ha, Hi. repeat split. lia.
Qed.

Lemma indexOf_first (c : char) (a b : jsstring) :
  forallb (fun x => negb (eqc x c)) a = true ->
  indexOf c (a ++ c :: b) = Z.of_nat (length a).
Proof.
  induction a as [|x a IH]; simpl.
  - intros _. unfold eqc. now rewrite N.eqb_refl.
  - intros H. apply andb_true_iff in H as [Hx Ha].
    apply negb_true_iff in Hx. rewrite Hx, (IH Ha).
    destruct (Z.eqb_spec (Z.of_nat (length a)) (-1)); lia.
Qed.

Lemma endsWith_snoc (c : char) (s : jsstring) :
  endsWith c s = true <-> exists d, s = d ++ [c].
Proof.
  unfold endsWith. destruct (rev s) as [|x r] eqn:E.
  - split; [discriminate|]. intros [d ->]. rewrite rev_app_distr in E.
    discriminate.
  - assert (Hs : s = rev r ++ [x]).
    { rewrite <- (rev_involutive s), E. reflexivity. }
    split.
    + intros H. apply eqc_eq in H. subst x. now exists (rev r).
    + intros [d Hd]. rewrite Hd in Hs. apply app_inj_tail in Hs as [_ <-].
      now apply eqc_eq.
Qed.

End JSFacts.

(* ===================================================================== *)
(** ** Facts about [Number] on strings of digits and dots *)
(* ===================================================================== *)

Module NumberFacts.
Import JS JSFacts Properties.

(** Case analysis on every comparison of code units in sight. *)
Ltac charcases :=
  unfold isDigit, isDot, isComma, isSpace, isWordChar, isWhiteSpace,
    isExponentIndicator, eqc, DOT, COMMA, SPACE in *;
  rewrite ?negb_true_iff, ?negb_false_iff in *;
  rewrite ?orb_true_iff, ?orb_false_iff, ?andb_true_iff, ?andb_false_iff,
    ?N.eqb_eq, ?N.eqb_neq, ?N.leb_le, ?N.leb_gt in *;
  lia.

Lemma digit_is_digitOrDot (c : char) :
  isDigit c = true -> digitOrDot c = true.
Proof. unfold digitOrDot. intros ->. reflexivity. Qed.

Lemma digitOrDot_not_white (c : char) :
  digitOrDot c = true -> isWhiteSpace c = false.
Proof. unfold digitOrDot. intros H. charcases. Qed.

Lemma digitOrDot_not_exponent (c : char) :
  digitOrDot c = true -> negb (isExponentIndicator c) = true.
Proof. unfold digitOrDot. intros H. charcases. Qed.

Lemma digit_not_dot (c : char) :
  isDigit c = true -> negb (isDot c) = true.
Proof. intros H. charcases. Qed.

Lemma digitOrDot_not_dot (c : char) :
  digitOrDot c = true -> negb (isDot c) = true -> isDigit c = true.
Proof. unfold digitOrDot. intros H1 H2. charcases. Qed.


Lemma digit_is_word (c : char) : isDigit c = true -> isWordChar c = true.
Proof. unfold isWordChar. intros ->. reflexivity. Qed.

(** No white space to trim. *)
Lemma trimStart_id (s : jsstring) :
  forallb digitOrDot s = true -> trimStart s = s.
Proof.
  destruct s as [|c s]; simpl; [reflexivity|].
  intros H. apply andb_true_iff in H as [Hc _].
  now rewrite (digitOrDot_not_white _ Hc).
Qed.

Lemma forallb_rev (p : char -> bool) (s : jsstring) :
  forallb p s = true -> forallb p (rev s) = true.
Proof.
  intros H. apply forallb_forall. intros x Hx. apply in_rev in Hx.
  revert x Hx. now apply forallb_forall.
Qed.

Lemma trim_id (s : jsstring) : forallb digitOrDot s = true -> trim s = s.
Proof.
  intros H. unfold trim. rewrite (trimStart_id s H).
  rewrite (trimStart_id (rev s) (forallb_rev _ _ H)).
  apply rev_involutive.
Qed.

Lemma nonDecimal_none (s : jsstring) :
  forallb digitOrDot s = true -> nonDecimal s = None.
Proof.
  destruct s as [|c [|p ds]]; simpl; try reflexivity.
  intros H. apply andb_true_iff in H as [_ H].
  apply andb_true_iff in H as [Hp _].
  assert (E : ((N.eqb p 120 || N.eqb p 88)%bool = false /\
               (N.eqb p 111 || N.eqb p 79)%bool = false /\
               (N.eqb p 98 || N.eqb p 66)%bool = false)).
  { unfold digitOrDot in Hp. repeat split; charcases. }
  destruct E as (E1 & E2 & E3). rewrite E1, E2, E3.
  now destruct (negb _).
Qed.

Lemma splitAt_none (p : char -> bool) (s : jsstring) :
  forallb (fun c => negb (p c)) s = true -> splitAt p s = (s, None).
Proof.
  induction s as [|c s IH]; simpl; [reflexivity|].
  intros H. apply andb_true_iff in H as [Hc Hs].
  apply negb_true_iff in Hc. now rewrite Hc, (IH Hs).
Qed.

Lemma splitAt_first (p : char -> bool) (a b : jsstring) (c : char) :
  forallb (fun c => negb (p c)) a = true -> p c = true ->
  splitAt p (a ++ c :: b) = (a, Some b).
Proof.
  intros Ha Hc. induction a as [|x a IH]; simpl.
  - now rewrite Hc.
  - simpl in Ha. apply andb_true_iff in Ha as [Hx Ha].
    apply negb_true_iff in Hx. now rewrite Hx, (IH Ha).
Qed.

Lemma not_Infinity (s : jsstring) :
  forallb digitOrDot s = true -> eqs s (str "Infinity") = false.
Proof.
  destruct s as [|c s]; [reflexivity|]. simpl.
  intros H. apply andb_true_iff in H as [Hc _].
  replace (eqc c 73%N) with false; [reflexivity|].
  symmetry. unfold digitOrDot in Hc. charcases.
Qed.

(** The unsigned decimal literal of digits, a dot and digits. *)
Lemma unsignedDecimal_fraction (a b : jsstring) :
  allDigits a = true -> allDigits b = true ->
  (nonEmpty a || nonEmpty b)%bool = true ->
  unsignedDecimal false (a ++ DOT :: b) =
  scaled false (decValue (a ++ b)) (- Z.of_nat (length b)).
Proof.
  intros Ha Hb Hne.
  assert (Hall : forallb digitOrDot (a ++ DOT :: b) = true).
  { rewrite forallb_app. simpl.
    rewrite (forallb_imp _ _ _ digit_is_digitOrDot Ha).
    rewrite (forallb_imp _ _ _ digit_is_digitOrDot Hb). reflexivity. }
  unfold unsignedDecimal. rewrite (not_Infinity _ Hall).
  rewrite splitAt_none
    by (eapply forallb_imp; [apply digitOrDot_not_exponent|exact Hall]).
  rewrite splitAt_first;
    [|eapply forallb_imp; [apply digit_not_dot|exact Ha]|reflexivity].
  now rewrite Ha, Hb, Hne.
Qed.

Lemma unsignedDecimal_digits (a : jsstring) :
  allDigits a = true -> nonEmpty a = true ->
  unsignedDecimal false a = scaled false (decValue a) 0.
Proof.
  intros Ha Hne.
  assert (Hall : forallb digitOrDot a = true)
    by exact (forallb_imp _ _ _ digit_is_digitOrDot Ha).
  unfold unsignedDecimal. rewrite (not_Infinity _ Hall).
  rewrite splitAt_none
    by (eapply forallb_imp; [apply digitOrDot_not_exponent|exact Hall]).
  rewrite splitAt_none
    by (eapply forallb_imp; [apply digit_not_dot|exact Ha]).
  rewrite Ha, Hne, app_nil_r. reflexivity.
Qed.

Lemma Number_unsigned (s : jsstring) :
  forallb digitOrDot s = true -> s <> [] ->
  Number s = unsignedDecimal false s.
Proof.
  intros H Hne. unfold Number. rewrite (trim_id s H), (nonDecimal_none s H).
  destruct s as [|c r]; [congruence|].
  simpl in H. apply andb_true_iff in H as [Hc _].
  replace (N.eqb c 43) with false
    by (symmetry; unfold digitOrDot in Hc; charcases).
  replace (N.eqb c 45) with false
    by (symmetry; unfold digitOrDot in Hc; charcases).
  reflexivity.
Qed.

(** *** Rounding a non-negative rational never yields a negative Number *)

Lemma iter_pos_invariant {A : Type} (P : A -> Prop) (f : A -> A) :
  (forall x, P x -> P (f x)) ->
  forall p x, P x -> P (iter_pos f p x).
Proof.
  intros Hf. induction p as [p IH|p IH|]; simpl; intros x Hx; auto.
Qed.

Lemma shr_1_nonneg (mrs : shr_record) :
  0 <= shr_m mrs -> 0 <= shr_m (shr_1 mrs).
Proof.
  destruct mrs as [m r s]. simpl.
  destruct m as [|[p|p|]|[p|p|]]; simpl; lia.
Qed.

Lemma shr_nonneg (mrs : shr_record) (e n : Z) :
  0 <= shr_m mrs -> 0 <= shr_m (fst (shr mrs e n)).
Proof.
  intros H. unfold shr. destruct n; simpl; auto.
  apply (iter_pos_invariant (fun x => 0 <= shr_m x)); auto.
  apply shr_1_nonneg.
Qed.

Lemma shr_fexp_nonneg (m e : Z) (l : location) :
  0 <= m -> 0 <= shr_m (fst (shr_fexp prec emax m e l)).
Proof.
  intros H. unfold shr_fexp. apply shr_nonneg.
  destruct l as [|[]]; simpl; exact H.
Qed.

Lemma round_nearest_even_nonneg (m : Z) (l : location) :
  0 <= m -> 0 <= round_nearest_even m l.
Proof.
  intros H. unfold round_nearest_even.
  destruct l as [|[]]; try destruct (Z.even m); lia.
Qed.

Lemma binary_round_aux_signClear (m e : Z) (l : location) :
  0 <= m -> signClear (binary_round_aux prec emax false m e l) = true.
Proof.
  intros H. unfold binary_round_aux.
  pose proof (shr_fexp_nonneg m e l H) as H1.
  destruct (shr_fexp prec emax m e l) as [mrs' e']. simpl in H1.
  pose proof (shr_fexp_nonneg _ e' loc_Exact
                (round_nearest_even_nonneg _ (loc_of_shr_record mrs') H1))
    as H2.
  destruct (shr_fexp prec emax _ e' loc_Exact) as [mrs'' e'']. simpl in H2.
  destruct (shr_m mrs''); [reflexivity| |lia].
  now destruct (e'' <=? emax - prec).
Qed.

Lemma roundRational_signClear (num den : Z) :
  0 <= num -> 0 < den -> signClear (roundRational false num den) = true.
Proof.
  intros Hn Hd. unfold roundRational.
  destruct num as [|n|n]; [|..|lia]; destruct den as [|d|d]; try lia.
  - reflexivity.
  - unfold SFdiv, SFdiv_core_binary.
    match goal with |- context [Z.div_eucl ?x ?y] =>
      pose proof (Z.div_eucl_eq x y ltac:(lia));
      pose proof (Z.mod_pos_bound x y ltac:(lia)) as Hr;
      pose proof (Z.div_pos x y) as Hq;
      unfold Z.modulo, Z.div in Hr, Hq;
      assert (Hx : 0 <= x)
    end.
    { match goal with |- 0 <= match ?s with _ => _ end =>
        destruct s; try lia end.
      apply Z.shiftl_nonneg. lia. }
    destruct (Z.div_eucl _ _) as [q r]. simpl.
    apply binary_round_aux_signClear. apply Hq; lia.
Qed.

Lemma decValue_nonneg_from (s : jsstring) (acc : Z) :
  allDigits s = true -> 0 <= acc ->
  0 <= fold_left (fun a c => 10 * a + digitValue c) s acc.
Proof.
  revert acc. induction s as [|c s IH]; intros acc H Hacc; [exact Hacc|].
  change (allDigits (c :: s)) with (isDigit c && allDigits s)%bool in H.
  apply andb_true_iff in H as [Hc Hs].
  cbn [fold_left]. apply IH; [exact Hs|].
  unfold digitValue. clear IH Hs. charcases.
Qed.

Lemma decValue_nonneg (s : jsstring) : allDigits s = true -> 0 <= decValue s.
Proof. intros H. apply decValue_nonneg_from; [exact H|lia]. Qed.

Lemma scaled_signClear (m e10 : Z) :
  0 <= m -> signClear (scaled false m e10) = true.
Proof.
  intros Hm. unfold scaled. destruct (Z.leb_spec 0 e10).
  - apply roundRational_signClear; [|lia].
    apply Z.mul_nonneg_nonneg; [exact Hm|]. apply Z.pow_nonneg. lia.
  - apply roundRational_signClear; [exact Hm|]. apply Z.pow_pos_nonneg; lia.
Qed.

End NumberFacts.

(* ===================================================================== *)
(** ** The shape of what [sanitize] returns *)
(* ===================================================================== *)

Module SanitizeFacts.
Import JS JSFacts Properties NumberFacts NumericInput.

Lemma normalized_chars (raw : jsstring) :
  forallb digitOrDot (normalized raw) = true.
Proof.
  unfold normalized. rewrite replaceEach_remove.
  eapply forallb_imp; [|apply forallb_filter].
  intros c H. simpl in H. now rewrite negb_involutive in H.
Qed.

Lemma normalized_id (s : jsstring) :
  forallb digitOrDot s = true -> normalized s = s.
Proof.
  intros H. unfold normalized.
  rewrite replaceEach_one, replaceEach_remove.
  assert (E : map (fun c => if isComma c then DOT else c) s = s).
  { induction s as [|c s IH]; [reflexivity|].
    cbn [forallb map] in *. apply andb_true_iff in H as [Hc Hs].
    rewrite (IH Hs). f_equal.
    replace (isComma c) with false; [reflexivity|].
    symmetry. unfold digitOrDot in Hc. charcases. }
  rewrite E. apply filter_all. eapply forallb_imp; [|exact H].
  intros c Hc. unfold digitOrDot in Hc. now rewrite Hc.
Qed.

Lemma remove_dots_digits (s : jsstring) :
  forallb digitOrDot s = true ->
  allDigits (replaceEach isDot [] s) = true.
Proof.
  intros H. rewrite replaceEach_remove. unfold allDigits.
  induction s as [|c s IH]; [reflexivity|].
  cbn [forallb filter] in *. apply andb_true_iff in H as [Hc Hs].
  destruct (negb (isDot c)) eqn:E; [|now apply IH].
  cbn [forallb]. now rewrite (digitOrDot_not_dot c Hc E), IH.
Qed.

Lemma remove_dots_id (s : jsstring) :
  allDigits s = true -> replaceEach isDot [] s = s.
Proof.
  intros H. rewrite replaceEach_remove. apply filter_all.
  eapply forallb_imp; [apply digit_not_dot|exact H].
Qed.

Lemma no_dot_digits (s : jsstring) :
  forallb digitOrDot s = true ->
  forallb (fun x => negb (eqc x DOT)) s = true ->
  allDigits s = true.
Proof.
  intros H1 H2. unfold allDigits. apply forallb_forall. intros x Hx.
  apply digitOrDot_not_dot.
  - now apply (proj1 (forallb_forall _ _) H1).
  - now apply (proj1 (forallb_forall _ _) H2).
Qed.

Lemma digits_no_dot (s : jsstring) :
  allDigits s = true -> forallb (fun x => negb (eqc x DOT)) s = true.
Proof. intros H. eapply forallb_imp; [apply digit_not_dot|exact H]. Qed.

Lemma digits_digitOrDot (s : jsstring) :
  allDigits s = true -> forallb digitOrDot s = true.
Proof. intros H. eapply forallb_imp; [apply digit_is_digitOrDot|exact H]. Qed.

Lemma fraction_digitOrDot (a b : jsstring) :
  allDigits a = true -> allDigits b = true ->
  forallb digitOrDot (a ++ DOT :: b) = true.
Proof.
  intros Ha Hb. rewrite forallb_app. cbn [forallb].
  now rewrite (digits_digitOrDot a Ha), (digits_digitOrDot b Hb).
Qed.

Lemma skipn_past (a b : jsstring) (c : char) :
  skipn (S (length a)) (a ++ c :: b) = b.
Proof. induction a as [|x a IH]; [reflexivity|exact IH]. Qed.

(** The three ways [sanitize] builds [cleaned]. *)
Lemma cleaned_integer (props : Props) (raw : jsstring) :
  type props = integer ->
  cleaned (sanitize props raw) = replaceEach isDot [] (normalized raw).
Proof. intros H. unfold sanitize. rewrite H. reflexivity. Qed.

Lemma cleaned_decimal_plain (props : Props) (raw : jsstring) :
  type props = decimal ->
  forallb (fun x => negb (eqc x DOT)) (normalized raw) = true ->
  cleaned (sanitize props raw) = normalized raw.
Proof.
  intros H Hn. unfold sanitize. rewrite H. cbn [cleaned].
  fold (normalized raw). apply indexOf_absent in Hn. now rewrite Hn.
Qed.

Lemma cleaned_decimal_split (props : Props) (raw a b : jsstring) :
  type props = decimal ->
  normalized raw = a ++ DOT :: b ->
  forallb (fun x => negb (eqc x DOT)) a = true ->
  cleaned (sanitize props raw) =
  a ++ DOT :: slice (replaceEach isDot [] b) 0 (Some (maxDecimals props)).
Proof.
  intros H Hn Ha. unfold sanitize. rewrite H. cbn [cleaned].
  fold (normalized raw). rewrite Hn, (indexOf_first DOT a b Ha).
  destruct (Z.eqb_spec (Z.of_nat (length a)) (-1)) as [E|_]; [lia|].
  cbn [negb]. rewrite slice_prefix.
  replace (Z.of_nat (length a) + 1) with (Z.of_nat (S (length a))) by lia.
  rewrite slice_suffix.
  rewrite firstn_app, Nat.sub_diag, firstn_all. cbn [firstn].
  rewrite app_nil_r.
  now rewrite skipn_past.
Qed.

Lemma normalized_cases (raw : jsstring) :
  forallb (fun x => negb (eqc x DOT)) (normalized raw) = true \/
  exists a b, normalized raw = a ++ DOT :: b /\
              forallb (fun x => negb (eqc x DOT)) a = true.
Proof.
  destruct (Z.eq_dec (indexOf DOT (normalized raw)) (-1)) as [E|E].
  - left. now apply indexOf_absent.
  - right. destruct (indexOf_found _ _ E) as (a & b & Hs & Ha & _).
    now exists a, b.
Qed.

Lemma slice_is_prefix (s : jsstring) (k : Z) :
  exists n, slice s 0 (Some k) = firstn n s.
Proof.
  destruct (Z.lt_ge_cases k 0) as [H|H].
  - eexists. now apply slice_from_end.
  - eexists. now apply slice_truncate.
Qed.

Lemma sanitize_shape (props : Props) (raw : jsstring) :
  CleanedShape (cleaned (sanitize props raw)).
Proof.
  pose proof (normalized_chars raw) as Hc.
  destruct (type props) eqn:Ht.
  - rewrite (cleaned_integer _ _ Ht). apply shape_digits.
    now apply remove_dots_digits.
  - destruct (normalized_cases raw) as [Hn|(a & b & Hn & Ha)].
    + rewrite (cleaned_decimal_plain _ _ Ht Hn). apply shape_digits.
      now apply no_dot_digits.
    + rewrite (cleaned_decimal_split _ _ a b Ht Hn Ha).
      rewrite Hn, forallb_app in Hc. cbn [forallb] in Hc.
      apply andb_true_iff in Hc as [Hca Hcb].
      apply andb_true_iff in Hcb as [_ Hcb].
      destruct (slice_is_prefix (replaceEach isDot [] b)
                  (maxDecimals props)) as [n ->].
      apply shape_fraction.
      * now apply no_dot_digits.
      * apply forallb_firstn. now apply remove_dots_digits.
Qed.

Lemma numericValue_parseCleaned (props : Props) (raw : jsstring) :
  numericValue (sanitize props raw) =
  parseCleaned (cleaned (sanitize props raw)).
Proof. reflexivity. Qed.

Lemma sanitize_eta (props : Props) (raw : jsstring) :
  sanitize props raw =
  {| cleaned := cleaned (sanitize props raw);
     numericValue := parseCleaned (cleaned (sanitize props raw)) |}.
Proof. reflexivity. Qed.

End SanitizeFacts.

(* ===================================================================== *)
(** ** Properties of [sanitize] *)
(* ===================================================================== *)

Module SanitizeProperties.
Import JS JSFacts Properties NumberFacts NumericInput SanitizeFacts.

Lemma signClear_not_negative (x : number) :
  signClear x = true -> greaterThan posZero x = false.
Proof. destruct x as [[]|[]| |[] m e]; simpl; try discriminate; reflexivity. Qed.

Lemma signClear_strictEquals (x : number) :
  signClear x = true -> strictEquals x x = true.
Proof.
  destruct x as [[]|[]| |[] m e]; simpl; try discriminate; try reflexivity.
  intros _. unfold strictEquals, SFeqb. simpl.
  now rewrite Z.compare_refl, Pos.compare_cont_refl.
Qed.

Lemma signClear_infinite (x : number) :
  signClear x = true -> isFinite x = false -> x = Infinity.
Proof. destruct x as [[]|[]| |[] m e]; simpl; try discriminate; reflexivity. Qed.

(** [Number] of a cleaned string other than [""] and ["."] is the rounding
    of a non-negative rational. *)
Lemma Number_cleaned_signClear (c : jsstring) :
  CleanedShape c -> c <> [] -> c <> [DOT] ->
  signClear (Number c) = true.
Proof.
  intros [ds Hds|a b Ha Hb] Hne Hnd.
  - rewrite Number_unsigned; [|now apply digits_digitOrDot|exact Hne].
    rewrite unsignedDecimal_digits; [|exact Hds|now destruct ds].
    apply scaled_signClear. now apply decValue_nonneg.
  - rewrite Number_unsigned;
      [|now apply fraction_digitOrDot|now destruct a].
    rewrite unsignedDecimal_fraction; [|exact Ha|exact Hb|].
    + apply scaled_signClear. apply decValue_nonneg.
      unfold allDigits in *. rewrite forallb_app. now rewrite Ha, Hb.
    + destruct a; [|reflexivity]. destruct b; [|reflexivity].
      now contradiction Hnd.
Qed.

Lemma cleaned_fraction_split (a b : jsstring) :
  allDigits a = true ->
  splitAt isDot (a ++ DOT :: b) = (a, Some b).
Proof.
  intros Ha. apply splitAt_first; [|reflexivity].
  eapply forallb_imp; [apply digit_not_dot|exact Ha].
Qed.

Lemma countMatches_app (p : char -> bool) (a b : jsstring) :
  countMatches p (a ++ b) = (countMatches p a + countMatches p b)%nat.
Proof. unfold countMatches. now rewrite filter_app, length_app. Qed.

Lemma countMatches_none (p : char -> bool) (s : jsstring) :
  forallb (fun c => negb (p c)) s = true -> countMatches p s = 0%nat.
Proof.
  unfold countMatches. induction s as [|c s IH]; [reflexivity|].
  cbn [forallb filter]. intros H. apply andb_true_iff in H as [Hc Hs].
  apply negb_true_iff in Hc. rewrite Hc. now apply IH.
Qed.

Lemma separator_gives_dot (a : jsstring) :
  existsb (fun c => (isDot c || isComma c)%bool) a = true ->
  exists a1 a2, normalized a = a1 ++ DOT :: a2 /\
                forallb (fun x => negb (eqc x DOT)) a1 = true.
Proof.
  intros H. destruct (normalized_cases a) as [Hn|Hn]; [|exact Hn].
  exfalso. apply existsb_exists in H as (x & Hx & Hsep).
  assert (Hin : In DOT (normalized a)).
  { unfold normalized. rewrite replaceEach_one, replaceEach_remove.
    apply filter_In. split; [|reflexivity].
    apply in_map_iff. exists x. split; [|exact Hx].
    destruct (isComma x) eqn:E; [reflexivity|].
    rewrite orb_false_r in Hsep. now apply eqc_eq in Hsep. }
  pose proof (proj1 (forallb_forall _ _) Hn DOT Hin) as C. discriminate.
Qed.

Lemma normalized_app (a b : jsstring) :
  normalized (a ++ b) = normalized a ++ normalized b.
Proof. unfold normalized. now rewrite !replaceEach_app. Qed.

(** C1 (as stated, refuted): the edit that empties the field is accepted,
    its numeric value is [null], and [Number("")] is [+0], so
    [numericValue === Number(cleanedString)] is false. *)
Lemma empty_field_value_is_not_Number :
  let r := sanitize defaultProps (str "") in
  checkLimit defaultProps (cleaned r) (numericValue r) = false /\
  cleaned r = [] /\
  numericValue r = None /\
  Number (cleaned r) = posZero /\
  strictEqualsNullable (numericValue r) (Number (cleaned r)) = false.
Proof. vm_compute. repeat split. Qed.

(** C1 (amended): for every raw input, if the cleaned string is empty or a
    lone ["."] the numeric value is [null]; otherwise [Number(cleaned)] is
    a Number with a clear sign bit (in particular not [NaN]), and the
    numeric value is that Number, so [numericValue === Number(cleaned)],
    when it is finite, and [null] when it is [Infinity]. *)
Theorem numericValue_is_Number_of_cleaned (props : Props) (raw : jsstring) :
  let r := sanitize props raw in
  if (eqs (cleaned r) [] || eqs (cleaned r) [DOT])%bool
  then numericValue r = None
  else
    signClear (Number (cleaned r)) = true /\
    if isFinite (Number (cleaned r))
    then numericValue r = Some (Number (cleaned r)) /\
         strictEqualsNullable (numericValue r) (Number (cleaned r)) = true
    else numericValue r = None /\ Number (cleaned r) = Infinity.
Proof.
  intros r. subst r. rewrite numericValue_parseCleaned.
  pose proof (sanitize_shape props raw) as Hs.
  set (c := cleaned (sanitize props raw)) in *. unfold parseCleaned.
  destruct (eqs c []) eqn:E1; [reflexivity|].
  destruct (eqs c [DOT]) eqn:E2; [reflexivity|]. cbn [negb andb orb].
  apply eqs_neq in E1, E2.
  pose proof (Number_cleaned_signClear c Hs E1 E2) as Hsign.
  split; [exact Hsign|].
  destruct (isFinite (Number c)) eqn:Hf.
  - split; [reflexivity|]. cbn [strictEqualsNullable].
    now apply signClear_strictEquals.
  - split; [reflexivity|]. now apply signClear_infinite.
Qed.

(** C9: the numeric value returned by [sanitize] is [null] or a finite
    Number that is not negative (its sign bit is clear and it is not
    below zero); it is never [NaN] or an infinity. *)
Theorem numericValue_null_or_finite_nonnegative
    (props : Props) (raw : jsstring) :
  match numericValue (sanitize props raw) with
  | None => True
  | Some n =>
      isFinite n = true /\ signClear n = true /\
      greaterThan posZero n = false
  end.
Proof.
  rewrite numericValue_parseCleaned.
  pose proof (sanitize_shape props raw) as Hs.
  set (c := cleaned (sanitize props raw)) in *. unfold parseCleaned.
  destruct (eqs c []) eqn:E1; [exact I|].
  destruct (eqs c [DOT]) eqn:E2; [exact I|]. cbn [negb andb].
  apply eqs_neq in E1, E2.
  pose proof (Number_cleaned_signClear c Hs E1 E2) as Hsign.
  destruct (isFinite (Number c)) eqn:Hf; [|exact I].
  repeat split; auto. now apply signClear_not_negative.
Qed.

(** C5: with [type = decimal] and a digit count [maxDecimals >= 0],
    [sanitize] keeps the part of the normalized string before its first
    dot, that dot, and the first [maxDecimals] of the digits that follow
    it (later dots dropped); a normalized string without a dot is kept as
    it is.  So the cleaned string has at most one dot, its fractional part
    consists of at most [maxDecimals] digits, and inserting a dot after
    a separator already present in the raw input leaves the cleaned
    string unchanged. *)
Theorem sanitize_decimal_keeps_first_dot (props : Props) (raw : jsstring) :
  type props = decimal -> 0 <= maxDecimals props ->
  let c := cleaned (sanitize props raw) in
  (forall a b,
      normalized raw = a ++ DOT :: b ->
      forallb (fun x => negb (isDot x)) a = true ->
      c = a ++ DOT ::
            firstn (Z.to_nat (maxDecimals props)) (replaceEach isDot [] b)) /\
  (forallb (fun x => negb (isDot x)) (normalized raw) = true ->
   c = normalized raw) /\
  (countMatches isDot c <= 1)%nat /\
  allDigits (fractionalPart c) = true /\
  Z.of_nat (length (fractionalPart c)) <= maxDecimals props /\
  (forall a b,
      raw = a ++ b ->
      existsb (fun x => (isDot x || isComma x)%bool) a = true ->
      cleaned (sanitize props (a ++ DOT :: b)) = c).
Proof.
  intros Ht Hmd c. subst c.
  assert (Hsplit : forall a b,
    normalized raw = a ++ DOT :: b ->
    forallb (fun x => negb (isDot x)) a = true ->
    cleaned (sanitize props raw) =
    a ++ DOT ::
      firstn (Z.to_nat (maxDecimals props)) (replaceEach isDot [] b)).
  { intros a b Hn Ha. rewrite (cleaned_decimal_split _ _ a b Ht Hn Ha).
    now rewrite slice_truncate. }
  pose proof (normalized_chars raw) as Hc.
  split; [exact Hsplit|]. split; [now apply cleaned_decimal_plain|].
  assert (Hshape :
    (countMatches isDot (cleaned (sanitize props raw)) <= 1)%nat /\
    allDigits (fractionalPart (cleaned (sanitize props raw))) = true /\
    Z.of_nat (length (fractionalPart (cleaned (sanitize props raw))))
      <= maxDecimals props).
  { destruct (normalized_cases raw) as [Hn|(a & b & Hn & Ha)].
    - rewrite (cleaned_decimal_plain _ _ Ht Hn).
      rewrite (countMatches_none isDot _ Hn).
      unfold fractionalPart. rewrite (splitAt_none isDot _ Hn). simpl.
      repeat split; lia.
    - rewrite (Hsplit a b Hn Ha).
      rewrite Hn, forallb_app in Hc. cbn [forallb] in Hc.
      apply andb_true_iff in Hc as [Hca Hcb].
      apply andb_true_iff in Hcb as [_ Hcb].
      pose proof (no_dot_digits a Hca Ha) as Hda.
      pose proof (remove_dots_digits b Hcb) as Hdb.
      set (f := firstn _ (replaceEach isDot [] b)).
      assert (Hdf : allDigits f = true) by now apply forallb_firstn.
      unfold fractionalPart. rewrite (cleaned_fraction_split a f Hda).
      cbn [snd]. change (a ++ DOT :: f) with (a ++ [DOT] ++ f).
      rewrite !countMatches_app.
      rewrite (countMatches_none isDot a Ha).
      rewrite (countMatches_none isDot f (digits_no_dot f Hdf)).
      repeat split; [simpl; lia|exact Hdf|].
      subst f. rewrite length_firstn. lia. }
  destruct Hshape as (H1 & H2 & H3). repeat split; auto.
  intros a b -> Hsep.
  destruct (separator_gives_dot a Hsep) as (a1 & a2 & Hna & Ha1).
  rewrite (cleaned_decimal_split props (a ++ DOT :: b) a1
             (a2 ++ DOT :: normalized b) Ht).
  - rewrite (cleaned_decimal_split props (a ++ b) a1
               (a2 ++ normalized b) Ht).
    + do 3 f_equal. change (DOT :: normalized b) with ([DOT] ++ normalized b).
      rewrite !replaceEach_app. reflexivity.
    + now rewrite normalized_app, Hna, <- app_assoc.
    + exact Ha1.
  - change (DOT :: b) with ([DOT] ++ b).
    rewrite !normalized_app, Hna, <- app_assoc. reflexivity.
  - exact Ha1.
Qed.

Lemma sanitize_decimal_keeps_first_dot_witness :
  let props := defaultProps in
  let raw := str "12,3.4.56" in
  let c := cleaned (sanitize props raw) in
  type props = decimal /\ 0 <= maxDecimals props /\
  c = str "12.34" /\ fractionalPart c = str "34" /\
  cleaned (sanitize props (str "12,.3.4.56")) = c.
Proof.
  pose proof (sanitize_decimal_keeps_first_dot defaultProps
                (str "12,3.4.56") eq_refl ltac:(vm_compute; discriminate))
    as (_ & _ & _ & _ & _ & H).
  specialize (H (str "12,") (str "3.4.56") eq_refl eq_refl).
  intros props raw c. split; [reflexivity|].
  split; [vm_compute; discriminate|].
  split; [reflexivity|]. split; [reflexivity|exact H].
Defined.

(** C10: for a digit count [maxDecimals >= 0], sanitising the cleaned
    string again returns the same cleaned string and the same numeric
    value. *)
Theorem sanitize_idempotent (props : Props) (raw : jsstring) :
  0 <= maxDecimals props ->
  sanitize props (cleaned (sanitize props raw)) = sanitize props raw.
Proof.
  intros Hmd.
  assert (E : cleaned (sanitize props (cleaned (sanitize props raw))) =
              cleaned (sanitize props raw)).
  { pose proof (normalized_chars raw) as Hc.
    destruct (type props) eqn:Ht.
    - rewrite (cleaned_integer _ raw Ht).
      pose proof (remove_dots_digits _ Hc) as Hd.
      rewrite (cleaned_integer _ _ Ht).
      rewrite (normalized_id _ (digits_digitOrDot _ Hd)).
      now apply remove_dots_id.
    - destruct (normalized_cases raw) as [Hn|(a & b & Hn & Ha)].
      + rewrite (cleaned_decimal_plain _ raw Ht Hn).
        rewrite (cleaned_decimal_plain _ _ Ht);
          rewrite (normalized_id _ Hc); auto.
      + rewrite (cleaned_decimal_split _ raw a b Ht Hn Ha).
        rewrite slice_truncate by assumption.
        rewrite Hn, forallb_app in Hc. cbn [forallb] in Hc.
        apply andb_true_iff in Hc as [Hca Hcb].
        apply andb_true_iff in Hcb as [_ Hcb].
        pose proof (no_dot_digits a Hca Ha) as Hda.
        pose proof (remove_dots_digits b Hcb) as Hdb.
        set (n := Z.to_nat (maxDecimals props)).
        set (f := firstn n (replaceEach isDot [] b)).
        assert (Hdf : allDigits f = true) by now apply forallb_firstn.
        rewrite (cleaned_decimal_split props _ a f Ht
                   (normalized_id _ (fraction_digitOrDot a f Hda Hdf)) Ha).
        rewrite slice_truncate by assumption.
        rewrite (remove_dots_id f Hdf). fold n. subst f.
        rewrite firstn_firstn, Nat.min_id. reflexivity. }
  rewrite (sanitize_eta props (cleaned (sanitize props raw))).
  rewrite (sanitize_eta props raw) at 3. now rewrite E.
Qed.

Lemma sanitize_idempotent_witness :
  0 <= maxDecimals defaultProps /\
  cleaned (sanitize defaultProps (str "1a2,345.6")) = str "12.34" /\
  sanitize defaultProps (cleaned (sanitize defaultProps (str "1a2,345.6")))
  = sanitize defaultProps (str "1a2,345.6").
Proof.
  split; [simpl; lia|]. split; [reflexivity|].
  apply sanitize_idempotent. simpl. lia.
Defined.

(** A dot typed before the first separator becomes the first dot itself,
    and then the cleaned string does change. *)
Example dot_before_first_separator :
  cleaned (sanitize defaultProps (str "12.5")) = str "12.5" /\
  cleaned (sanitize defaultProps (str "1.2.5")) = str "1.25".
Proof. vm_compute. split; reflexivity. Qed.

(** With a negative [maxDecimals], [slice] counts from the end of the
    fraction and each pass drops more digits. *)
Example sanitize_negative_maxDecimals :
  let props := {| modelValue := None; type := decimal; disabled := false;
                  max := None; maxLength := None; maxDecimals := -1 |} in
  cleaned (sanitize props (str "1.234")) = str "1.23" /\
  cleaned (sanitize props (str "1.23")) = str "1.2".
Proof. vm_compute. split; reflexivity. Qed.

End SanitizeProperties.

(* ===================================================================== *)
(** ** Formatting and the limit check *)
(* ===================================================================== *)

Module FormatProperties.
Import JS JSFacts Properties NumberFacts NumericInput SanitizeFacts.

(** Removing a class that contains the space undoes the grouping. *)
Lemma strip_insertSpaces (p : char -> bool) (prev : bool) (s : jsstring) :
  p SPACE = true ->
  replaceEach p [] (insertSpaces prev s) = replaceEach p [] s.
Proof.
  intros Hp. revert prev. induction s as [|c s IH]; intros prev.
  - reflexivity.
  - cbn [insertSpaces]. rewrite replaceEach_app.
    change (c :: insertSpaces (isWordChar c) s)
      with ([c] ++ insertSpaces (isWordChar c) s).
    change (c :: s) with ([c] ++ s) at 2.
    rewrite !replaceEach_app, IH.
    destruct (prev && groupStart (c :: s))%bool; [|reflexivity].
    unfold replaceEach at 1. cbn [flat_map]. now rewrite Hp.
Qed.

Lemma strip_formatFromCleaned (p : char -> bool) (c : jsstring) :
  p SPACE = true ->
  replaceEach p [] (formatFromCleaned c) = replaceEach p [] c.
Proof.
  intros Hp. unfold formatFromCleaned.
  destruct (eqs c []) eqn:E; [apply eqs_eq in E; now subst c|].
  destruct (Z.eqb_spec (indexOf DOT c) (-1)) as [Hi|Hi]; cbn [negb].
  - now apply strip_insertSpaces.
  - destruct (indexOf_found DOT c Hi) as (a & b & -> & Ha & Hl).
    rewrite Hl, slice_prefix.
    replace (Z.of_nat (length a) + 1) with (Z.of_nat (S (length a))) by lia.
    rewrite slice_suffix, skipn_past.
    rewrite firstn_app, Nat.sub_diag, firstn_all. cbn [firstn].
    rewrite app_nil_r.
    change ([DOT] ++ b) with (DOT :: b). rewrite !replaceEach_app.
    unfold formatWithSpaces. now rewrite strip_insertSpaces.
Qed.

Lemma shape_chars (c : jsstring) :
  CleanedShape c -> forallb digitOrDot c = true.
Proof.
  intros [ds H|a b Ha Hb].
  - now apply digits_digitOrDot.
  - now apply fraction_digitOrDot.
Qed.

Lemma digitOrDot_not_space (c : char) :
  digitOrDot c = true -> negb (isSpace c) = true.
Proof. unfold digitOrDot. intros H. charcases. Qed.

Lemma getDigitCount_counts (s : jsstring) :
  getDigitCount s = countMatches isDigit s.
Proof.
  unfold getDigitCount, countMatches. rewrite replaceEach_remove.
  f_equal. apply filter_ext. intros c. apply negb_involutive.
Qed.

(** C2: removing the spaces (or, as [parseDisplay] does, all white space)
    from the display string of a cleaned string returned by [sanitize]
    gives that cleaned string back. *)
Theorem display_round_trips_to_cleaned (props : Props) (raw : jsstring) :
  let c := cleaned (sanitize props raw) in
  stripSpaces (formatFromCleaned c) = c /\
  replaceEach isWhiteSpace [] (formatFromCleaned c) = c.
Proof.
  intros c. pose proof (shape_chars c (sanitize_shape props raw)) as Hc.
  unfold stripSpaces. rewrite !strip_formatFromCleaned by reflexivity.
  rewrite !replaceEach_remove. split; apply filter_all.
  - eapply forallb_imp; [apply digitOrDot_not_space|exact Hc].
  - eapply forallb_imp; [|exact Hc].
    intros x Hx. now rewrite (digitOrDot_not_white x Hx).
Qed.

(** The display of a cleaned string that ends in a bare dot. *)
Example display_of_trailing_dot :
  let c := cleaned (sanitize defaultProps (str "1234567.")) in
  c = str "1234567." /\ formatFromCleaned c = str "1 234 567." /\
  stripSpaces (formatFromCleaned c) = c.
Proof. vm_compute. repeat split. Qed.

(** C4: with [max] configured the limit is violated exactly when the
    numeric value is not [null] and greater than [max]; with only
    [maxLength] configured, exactly when the number of digits of the
    cleaned string exceeds [maxLength]; with neither, never. *)
Theorem checkLimit_exact (props : Props) (c : jsstring)
    (v : option number) :
  match limitType props with
  | LimitType.max =>
      exists m, max props = Some m /\
        (checkLimit props c v = true <->
         exists n, v = Some n /\ greaterThan n m = true)
  | LimitType.maxLength =>
      exists l, max props = None /\ maxLength props = Some l /\
        (checkLimit props c v = true <->
         l < Z.of_nat (countMatches isDigit c))
  | LimitType.none =>
      max props = None /\ maxLength props = None /\
      checkLimit props c v = false
  end.
Proof.
  unfold checkLimit, limitType. rewrite getDigitCount_counts.
  destruct (max props) as [m|].
  - exists m. split; [reflexivity|]. destruct v as [n|].
    + split; [intros H; now exists n|]. now intros (n' & [= <-] & H).
    + split; [discriminate|]. now intros (n' & [=] & _).
  - destruct (maxLength props) as [l|].
    + exists l. repeat split; intros H;
        destruct (Z.gtb_spec (Z.of_nat (countMatches isDigit c)) l);
        try lia; try reflexivity; discriminate.
    + repeat split.
Qed.

End FormatProperties.

(* ===================================================================== *)
(** ** The event handlers *)
(* ===================================================================== *)

Module HandlerProperties.
Import JS JSFacts Properties NumberFacts NumericInput SanitizeFacts.

(** *** Caret *)

(** The loop, started in step with its index, advances as [advance] does
    on what is still missing. *)
Lemma caretLoop_advance (rest : jsstring) (i count before : nat) :
  (count <= before)%nat ->
  caretLoop rest i i count before = (i + advance rest (before - count))%nat.
Proof.
  revert i count. induction rest as [|c rest IH]; intros i count Hle.
  - cbn [caretLoop]. destruct (before - count)%nat; cbn [advance]; lia.
  - cbn [caretLoop]. destruct (Nat.ltb_spec count before) as [Hlt|Hge].
    + replace (i + 1)%nat with (S i) by lia.
      destruct (before - count)%nat as [|m] eqn:Em; [lia|].
      cbn [advance]. destruct (isSpace c); cbn [negb].
      * rewrite IH by lia. rewrite Em. lia.
      * rewrite IH by lia. replace (before - S count)%nat with m by lia.
        lia.
    + replace (before - count)%nat with 0%nat by lia. cbn [advance]. lia.
Qed.

Lemma newCursorPos_advance (old : jsstring) (pos : nat) (new : jsstring) :
  newCursorPos old pos new = advance new (charsBeforeCursor old pos).
Proof.
  unfold newCursorPos. rewrite caretLoop_advance by lia.
  now rewrite Nat.sub_0_r.
Qed.

Lemma count_partition (p : char -> bool) (s : jsstring) :
  (countMatches p s + countMatches (fun c => negb (p c)) s)%nat = length s.
Proof.
  unfold countMatches. induction s as [|c s IH]; [reflexivity|].
  cbn [filter]. destruct (p c); cbn [negb length]; lia.
Qed.

Lemma countMatches_ext_in (p q : char -> bool) (s : jsstring) :
  forallb (fun c => Bool.eqb (p c) (q c)) s = true ->
  countMatches p s = countMatches q s.
Proof.
  unfold countMatches. induction s as [|c s IH]; [reflexivity|].
  cbn [forallb filter]. intros H. apply andb_true_iff in H as [Hc Hs].
  apply eqb_prop in Hc. rewrite Hc.
  destruct (q c); cbn [length]; now rewrite (IH Hs).
Qed.

Lemma white_is_space_in (s : jsstring) :
  forallb (fun c => implb (isWhiteSpace c) (isSpace c)) s = true ->
  forallb (fun c => Bool.eqb (negb (isWhiteSpace c)) (negb (isSpace c))) s
  = true.
Proof.
  apply forallb_imp. intros c H.
  destruct (isSpace c) eqn:E.
  - replace (isWhiteSpace c) with true; [reflexivity|].
    symmetry. charcases.
  - destruct (isWhiteSpace c); [discriminate|reflexivity].
Qed.

Lemma charsBeforeCursor_counts (old : jsstring) (pos : nat) :
  forallb (fun c => implb (isWhiteSpace c) (isSpace c)) old = true ->
  charsBeforeCursor old pos =
  (nonSpaceBefore old pos + (pos - length old))%nat.
Proof.
  intros H. unfold charsBeforeCursor, nonSpaceBefore.
  rewrite slice_prefix.
  pose proof (count_partition isWhiteSpace (firstn pos old)) as Hp.
  rewrite length_firstn in Hp.
  rewrite <- (countMatches_ext_in _ _ _
                (white_is_space_in _ (forallb_firstn _ pos old H))).
  lia.
Qed.

(** C6 (as stated, refuted): after typing [3] at the end of [12] the caret
    of the edited field is at 3, beyond the old display string; the
    component moves the caret to 3, the specification's count of the old
    string's characters gives 2. *)
Lemma caret_after_appended_digit :
  newCursorPos (str "12") 3 (str "123") = 3%nat /\
  caretSpec (str "12") 3 (str "123") = 2%nat /\
  newCursorPos (str "12") 3 (str "123")
  <> caretSpec (str "12") 3 (str "123").
Proof. vm_compute. repeat split. discriminate. Qed.

(** C6 (amended): for an old display string whose only white space is the
    grouping space, [charsBeforeCursor] is the number of non-space
    characters of the old display string before the caret offset plus the
    amount by which the offset exceeds the length of that string, and the
    new offset is reached by advancing through the new display string
    while fewer than [charsBeforeCursor] non-space characters have been
    passed.  For an offset within the old display string this is the
    specification's algorithm. *)
Theorem caret_counts_characters_before_offset
    (old : jsstring) (pos : nat) (new : jsstring) :
  forallb (fun c => implb (isWhiteSpace c) (isSpace c)) old = true ->
  newCursorPos old pos new =
  advance new (nonSpaceBefore old pos + (pos - length old)) /\
  ((pos <= length old)%nat ->
   newCursorPos old pos new = caretSpec old pos new).
Proof.
  intros H. rewrite newCursorPos_advance, (charsBeforeCursor_counts _ _ H).
  split; [reflexivity|]. intros Hle. unfold caretSpec.
  replace (pos - length old)%nat with 0%nat by lia.
  now rewrite Nat.add_0_r.
Qed.

Lemma caret_counts_characters_before_offset_witness :
  forallb (fun c => implb (isWhiteSpace c) (isSpace c)) (str "1 234")
  = true /\
  newCursorPos (str "1 234") 6 (str "12 345") = 6%nat /\
  newCursorPos (str "1 234") 3 (str "11 234")
  = caretSpec (str "1 234") 3 (str "11 234").
Proof.
  split; [reflexivity|]. split.
  - exact (proj1 (caret_counts_characters_before_offset
                    (str "1 234") 6 (str "12 345") eq_refl)).
  - apply (caret_counts_characters_before_offset
             (str "1 234") 3 (str "11 234") eq_refl).
    vm_compute. lia.
Defined.

(** C7 (as stated, refuted): the computed offset is not 2. *)
Lemma caret_example_is_not_two :
  newCursorPos (str "1234") 2 (str "1 234") <> 2%nat.
Proof. vm_compute. discriminate. Qed.

(** C7 (amended): with the caret after the 2nd digit of ["1234"] and the
    new display ["1 234"], the new caret offset is 3: the caret is right
    after the same 2nd digit, past the inserted space. *)
Theorem caret_example_after_second_digit :
  newCursorPos (str "1234") 2 (str "1 234") = 3%nat /\
  firstn 3 (str "1 234") = str "1 2" /\
  stripSpaces (firstn 3 (str "1 234")) = firstn 2 (str "1234").
Proof. vm_compute. repeat split. Qed.

(** *** Rejected edits *)

(** C3 (as stated, refuted): on a disabled field [onInput] returns at
    once; the sanitized text violates the limit, yet the error flag is
    not raised and the field's text is not rolled back. *)
Lemma disabled_field_raises_no_error :
  let props := maxHundred true in
  let st := typingOverMax in
  let r := sanitize props (value (input st)) in
  checkLimit props (cleaned r) (numericValue r) = true /\
  hasError (onInput props st) = false /\
  value (input (onInput props st)) = str "150".
Proof. vm_compute. repeat split. Qed.

(** C3 (amended): on a field that is not disabled, an input event whose
    sanitized result violates the limit leaves the display text as it
    was, resets the field's text to it, raises the error flag and emits
    no event. *)
Theorem onInput_rejects_over_limit (props : Props) (st : State) :
  disabled props = false ->
  checkLimit props (cleaned (sanitize props (value (input st))))
    (numericValue (sanitize props (value (input st)))) = true ->
  displayValue (onInput props st) = displayValue st /\
  value (input (onInput props st)) = displayValue st /\
  hasError (onInput props st) = true /\
  emitted (onInput props st) = emitted st /\
  filter isUpdate (emitted (onInput props st))
  = filter isUpdate (emitted st).
Proof.
  intros Hd Hl. unfold onInput. rewrite Hd.
  destruct (sanitize props (value (input st))) as [c v].
  cbn [cleaned numericValue] in Hl. rewrite Hl. repeat split.
Qed.

Lemma onInput_rejects_over_limit_witness :
  let props := maxHundred false in
  let st := typingOverMax in
  disabled props = false /\
  checkLimit props (cleaned (sanitize props (value (input st))))
    (numericValue (sanitize props (value (input st)))) = true /\
  displayValue (onInput props st) = str "15" /\
  value (input (onInput props st)) = str "15" /\
  hasError (onInput props st) = true /\
  emitted (onInput props st) = [focus].
Proof.
  intros props st.
  assert (Hl : checkLimit props
                 (cleaned (sanitize props (value (input st))))
                 (numericValue (sanitize props (value (input st)))) = true)
    by (vm_compute; reflexivity).
  destruct (onInput_rejects_over_limit props st eq_refl Hl)
    as (H1 & H2 & H3 & H4 & _).
  repeat split; assumption.
Defined.

(** *** Blur *)

Lemma strip_white_digits (d : jsstring) :
  forallb (fun c => (isDigit c || isSpace c)%bool) d = true ->
  allDigits (replaceEach isWhiteSpace [] d) = true.
Proof.
  intros H. rewrite replaceEach_remove. unfold allDigits.
  induction d as [|c d IH]; [reflexivity|].
  cbn [forallb filter] in *. apply andb_true_iff in H as [Hc Hd].
  destruct (negb (isWhiteSpace c)) eqn:E; [|now apply IH].
  cbn [forallb]. rewrite (IH Hd), andb_true_r. charcases.
Qed.

Lemma commas_to_dots_id (s : jsstring) :
  forallb digitOrDot s = true -> replaceEach isComma [DOT] s = s.
Proof.
  intros H. rewrite replaceEach_one.
  induction s as [|c s IH]; [reflexivity|].
  cbn [forallb map] in *. apply andb_true_iff in H as [Hc Hs].
  rewrite (IH Hs). f_equal.
  replace (isComma c) with false; [reflexivity|].
  symmetry. unfold digitOrDot in Hc. charcases.
Qed.

(** A trailing dot after digits does not change the parsed value. *)
Lemma parseDisplay_trailing_dot (d : jsstring) :
  forallb (fun c => (isDigit c || isSpace c)%bool) d = true ->
  parseDisplay (d ++ [DOT]) = parseDisplay d.
Proof.
  intros H. pose proof (strip_white_digits d H) as Hds.
  unfold parseDisplay. rewrite replaceEach_app.
  change (replaceEach isWhiteSpace [] [DOT]) with [DOT].
  set (ds := replaceEach isWhiteSpace [] d) in *.
  rewrite (commas_to_dots_id (ds ++ [DOT]))
    by now apply fraction_digitOrDot.
  rewrite (commas_to_dots_id ds) by now apply digits_digitOrDot.
  destruct ds as [|x ds']; [reflexivity|].
  set (s := x :: ds') in *.
  replace (eqs (s ++ [DOT]) []) with false by reflexivity.
  replace (eqs (s ++ [DOT]) [DOT]) with false
    by (subst s; cbn [app eqs]; destruct ds'; cbn [app eqs];
        now rewrite andb_false_r).
  replace (eqs s []) with false by reflexivity.
  replace (eqs s [DOT]) with false.
  - cbn [orb].
    rewrite (Number_unsigned (s ++ [DOT]));
      [|now apply fraction_digitOrDot|discriminate].
    rewrite (Number_unsigned s);
      [|now apply digits_digitOrDot|discriminate].
    rewrite (unsignedDecimal_fraction s []); [|exact Hds|reflexivity|].
    + rewrite (unsignedDecimal_digits s Hds eq_refl).
      now rewrite app_nil_r.
    + reflexivity.
  - subst s. cbn [eqs]. change (allDigits (x :: ds'))
      with (isDigit x && allDigits ds')%bool in Hds.
    apply andb_true_iff in Hds as [Hx _].
    replace (eqc x DOT) with false; [reflexivity|].
    symmetry. charcases.
Qed.

(** C8: a blur while the display ends with ["."] removes exactly that
    dot, clears the error flag and emits [blur] only, so no
    [update:modelValue]; when what precedes the dot is grouped digits,
    the display parses to the same value as before. *)
Theorem blur_strips_trailing_dot (st : State) (d : jsstring) :
  displayValue st = d ++ [DOT] ->
  displayValue (onBlur st) = d /\
  hasError (onBlur st) = false /\
  isFocused (onBlur st) = false /\
  emitted (onBlur st) = emitted st ++ [blur] /\
  filter isUpdate (emitted (onBlur st)) = filter isUpdate (emitted st) /\
  (forallb (fun c => (isDigit c || isSpace c)%bool) d = true ->
   parseDisplay (displayValue (onBlur st)) = parseDisplay (displayValue st)).
Proof.
  intros Hd. unfold onBlur.
  cbn [setHasError setIsFocused displayValue].
  assert (He : endsWith DOT (displayValue st) = true)
    by (apply endsWith_snoc; now exists d).
  rewrite He, Hd, slice_drop_last.
  cbn [emit scheduleWidthUpdate setDisplayValue displayValue hasError
       isFocused emitted].
  repeat split.
  - rewrite filter_app. cbn [filter isUpdate]. apply app_nil_r.
  - intros H. symmetry. now apply parseDisplay_trailing_dot.
Qed.

Lemma blur_strips_trailing_dot_witness :
  let st := {| displayValue := str "42."; isFocused := true;
               hasError := true;
               input := {| value := str "42."; selectionStart := Some 3%nat |};
               emitted := [focus; update_modelValue (Some (Number (str "42")))];
               widthUpdatePending := false |} in
  displayValue st = str "42" ++ [DOT] /\
  displayValue (onBlur st) = str "42" /\
  hasError (onBlur st) = false /\
  filter isUpdate (emitted (onBlur st))
  = [update_modelValue (Some (Number (str "42")))] /\
  parseDisplay (displayValue (onBlur st)) = Some (Number (str "42")) /\
  parseDisplay (displayValue st) = Some (Number (str "42")).
Proof.
  intros st.
  destruct (blur_strips_trailing_dot st (str "42") eq_refl)
    as (H1 & H2 & _ & _ & H5 & H6).
  specialize (H6 eq_refl).
  split; [reflexivity|]. split; [exact H1|]. split; [exact H2|].
  split; [exact H5|]. split.
  - rewrite H1. vm_compute. reflexivity.
  - rewrite <- H6, H1. vm_compute. reflexivity.
Defined.

End HandlerProperties.

(* ===================================================================== *)
(** ** Digit grouping *)
(* ===================================================================== *)

Module GroupingProperties.
Import JS JSFacts Properties NumberFacts NumericInput SanitizeFacts.

Lemma allDigits_cons (c : char) (s : jsstring) :
  allDigits (c :: s) = (isDigit c && allDigits s)%bool.
Proof. reflexivity. Qed.

Lemma allDigits_app (a b : jsstring) :
  allDigits (a ++ b) = (allDigits a && allDigits b)%bool.
Proof. unfold allDigits. apply forallb_app. Qed.

Lemma digitRun_app (s t : jsstring) :
  allDigits s = true -> digitRun (s ++ t) = (length s + digitRun t)%nat.
Proof.
  induction s as [|x s IH]; [reflexivity|].
  rewrite allDigits_cons. intros H. apply andb_true_iff in H as [Hx Hs].
  cbn [app digitRun length]. rewrite Hx, (IH Hs). reflexivity.
Qed.

Lemma digitRun_digits (s : jsstring) :
  allDigits s = true -> digitRun s = length s.
Proof.
  intros H. rewrite <- (app_nil_r s) at 1. rewrite (digitRun_app s [] H).
  cbn [digitRun]. lia.
Qed.

Lemma groupStart_digits (s : jsstring) :
  allDigits s = true ->
  groupStart s = (negb (Nat.eqb (length s) 0)
                  && Nat.eqb (Nat.modulo (length s) 3) 0)%bool.
Proof. intros H. unfold groupStart. now rewrite (digitRun_digits s H). Qed.

Lemma groupStart_three_more (s t : jsstring) :
  allDigits s = true -> allDigits t = true -> length t = 3%nat ->
  s <> [] -> groupStart (s ++ t) = groupStart s.
Proof.
  intros Hs Ht Hl Hne.
  rewrite (groupStart_digits (s ++ t)) by now rewrite allDigits_app, Hs, Ht.
  rewrite (groupStart_digits s Hs), length_app, Hl.
  replace (length s + 3)%nat with (length s + 1 * 3)%nat by lia.
  rewrite Nat.Div0.mod_add.
  destruct s; [congruence|]. cbn [length]. reflexivity.
Qed.

(** A group of three digits at the end gets its own separator, and the
    grouping of what precedes it is not affected. *)
Lemma insertSpaces_last_group (prev : bool) (s : jsstring) (a b c : char) :
  allDigits s = true ->
  isDigit a = true -> isDigit b = true -> isDigit c = true ->
  insertSpaces prev (s ++ [a; b; c]) =
  insertSpaces prev s
  ++ (if match s with [] => prev | _ => true end then [SPACE] else [])
  ++ [a; b; c].
Proof.
  intros Hs Ha Hb Hc. revert prev.
  assert (Ht : allDigits [a; b; c] = true)
    by (rewrite !allDigits_cons, Ha, Hb, Hc; reflexivity).
  induction s as [|x s IH]; intros prev.
  - cbn [app insertSpaces].
    rewrite (groupStart_digits [a; b; c] Ht).
    rewrite (groupStart_digits [b; c])
      by (rewrite !allDigits_cons, Hb, Hc; reflexivity).
    rewrite (groupStart_digits [c])
      by (rewrite !allDigits_cons, Hc; reflexivity).
    cbn. rewrite !andb_false_r, andb_true_r. now destruct prev.
  - rewrite allDigits_cons in Hs. apply andb_true_iff in Hs as [Hx Hs].
    change ((x :: s) ++ [a; b; c]) with (x :: (s ++ [a; b; c])).
    cbn [insertSpaces].
    change (x :: (s ++ [a; b; c])) with ((x :: s) ++ [a; b; c]).
    rewrite (groupStart_three_more (x :: s) [a; b; c]);
      [|now rewrite allDigits_cons, Hx, Hs|exact Ht|reflexivity|discriminate].
    rewrite (IH Hs), (digit_is_word x Hx).
    rewrite <- !app_assoc. cbn [app]. f_equal. f_equal.
    now destruct s.
Qed.

Lemma insertSpaces_short (prev : bool) (s : jsstring) :
  allDigits s = true -> (length s <= 2)%nat -> insertSpaces prev s = s.
Proof.
  intros Hs Hl. destruct s as [|a [|b [|c s]]]; cbn [length] in Hl; try lia.
  - reflexivity.
  - cbn [insertSpaces]. rewrite (groupStart_digits [a] Hs). cbn.
    now rewrite andb_false_r.
  - cbn [insertSpaces]. rewrite (groupStart_digits [a; b] Hs).
    rewrite allDigits_cons in Hs. apply andb_true_iff in Hs as [_ Hb].
    rewrite (groupStart_digits [b] Hb). cbn. now rewrite !andb_false_r.
Qed.

Lemma formatFromCleaned_digits (a : jsstring) :
  allDigits a = true -> formatFromCleaned a = formatWithSpaces a.
Proof.
  intros Ha. unfold formatFromCleaned.
  destruct (eqs a []) eqn:E; [apply eqs_eq in E; now subst a|].
  now rewrite (proj2 (indexOf_absent DOT a) (digits_no_dot a Ha)).
Qed.

Lemma formatFromCleaned_fraction (a b : jsstring) :
  allDigits a = true ->
  formatFromCleaned (a ++ DOT :: b) = formatWithSpaces a ++ DOT :: b.
Proof.
  intros Ha. unfold formatFromCleaned.
  replace (eqs (a ++ DOT :: b) []) with false
    by (symmetry; apply eqs_neq; now destruct a).
  rewrite (indexOf_first DOT a b (digits_no_dot a Ha)).
  destruct (Z.eqb_spec (Z.of_nat (length a)) (-1)) as [E|_]; [lia|].
  cbn [negb]. rewrite slice_prefix.
  replace (Z.of_nat (length a) + 1) with (Z.of_nat (S (length a))) by lia.
  rewrite slice_suffix, skipn_past.
  rewrite firstn_app, Nat.sub_diag, firstn_all. cbn [firstn].
  now rewrite app_nil_r.
Qed.

(** X1: on a string of digits [formatWithSpaces] groups from the right:
    up to three digits are left as they are, and appending three digits
    to a non-empty digit string appends a space and those digits to its
    grouping. *)
Theorem formatWithSpaces_groups_from_right (s : jsstring) :
  allDigits s = true ->
  ((length s <= 3)%nat -> formatWithSpaces s = s) /\
  (forall a b c,
      isDigit a = true -> isDigit b = true -> isDigit c = true ->
      s <> [] ->
      formatWithSpaces (s ++ [a; b; c])
      = formatWithSpaces s ++ SPACE :: [a; b; c]).
Proof.
  intros Hs. split.
  - intros Hl. unfold formatWithSpaces.
    destruct s as [|a s]; [reflexivity|].
    rewrite allDigits_cons in Hs. apply andb_true_iff in Hs as [Ha Hs].
    cbn [insertSpaces andb app]. f_equal.
    apply insertSpaces_short; [exact Hs|cbn [length] in Hl; lia].
  - intros a b c Ha Hb Hc Hne. unfold formatWithSpaces.
    rewrite (insertSpaces_last_group false s a b c Hs Ha Hb Hc).
    now destruct s.
Qed.

Lemma formatWithSpaces_groups_from_right_witness :
  allDigits (str "1234") = true /\
  formatWithSpaces (str "123") = str "123" /\
  formatWithSpaces (str "1234" ++ str "567") = str "1 234 567".
Proof.
  split; [reflexivity|]. split.
  - apply (formatWithSpaces_groups_from_right (str "123") eq_refl).
    vm_compute. lia.
  - change (str "567") with [chr "5"; chr "6"; chr "7"].
    rewrite (proj2 (formatWithSpaces_groups_from_right (str "1234") eq_refl)
               (chr "5") (chr "6") (chr "7") eq_refl eq_refl eq_refl)
      by discriminate.
    vm_compute. reflexivity.
Defined.

(** X2: [formatFromCleaned] groups the integer part only: the display of
    digits, a dot and more digits is the grouped integer part, the dot
    and the fraction as it is (also when the fraction is empty); the
    display of digits alone is their grouping. *)
Theorem formatFromCleaned_groups_integer_part (a b : jsstring) :
  allDigits a = true ->
  formatFromCleaned (a ++ DOT :: b) = formatWithSpaces a ++ DOT :: b /\
  formatFromCleaned a = formatWithSpaces a.
Proof.
  intros Ha. split.
  - now apply formatFromCleaned_fraction.
  - now apply formatFromCleaned_digits.
Qed.

Lemma formatFromCleaned_groups_integer_part_witness :
  allDigits (str "1234567") = true /\
  formatFromCleaned (str "1234567" ++ DOT :: str "8901")
  = str "1 234 567.8901" /\
  formatFromCleaned (str "1234567" ++ DOT :: []) = str "1 234 567.".
Proof.
  split; [reflexivity|]. split.
  - rewrite (proj1 (formatFromCleaned_groups_integer_part
                      (str "1234567") (str "8901") eq_refl)).
    vm_compute. reflexivity.
  - rewrite (proj1 (formatFromCleaned_groups_integer_part
                      (str "1234567") [] eq_refl)).
    vm_compute. reflexivity.
Defined.

End GroupingProperties.

(* ===================================================================== *)
(** ** Sanitising, displaying and parsing back *)
(* ===================================================================== *)

Module RoundTripProperties.
Import JS JSFacts Properties NumberFacts NumericInput SanitizeFacts.
Import SanitizeProperties FormatProperties HandlerProperties.
Import GroupingProperties.

Lemma strip_white_cleaned (c : jsstring) :
  forallb digitOrDot c = true -> replaceEach isWhiteSpace [] c = c.
Proof.
  intros H. rewrite replaceEach_remove. apply filter_all.
  eapply forallb_imp; [|exact H].
  intros x Hx. now rewrite (digitOrDot_not_white x Hx).
Qed.

Lemma parseDisplay_formatFromCleaned (c : jsstring) :
  CleanedShape c -> parseDisplay (formatFromCleaned c) = parseCleaned c.
Proof.
  intros Hs. pose proof (shape_chars c Hs) as Hc.
  unfold parseDisplay, parseCleaned.
  rewrite strip_formatFromCleaned by reflexivity.
  rewrite (strip_white_cleaned c Hc), (commas_to_dots_id c Hc).
  destruct (eqs c []); [reflexivity|]. now destruct (eqs c [DOT]).
Qed.

Lemma normalized_insertSpaces (prev : bool) (s : jsstring) :
  normalized (insertSpaces prev s) = normalized s.
Proof.
  revert prev. induction s as [|c s IH]; intros prev; [reflexivity|].
  cbn [insertSpaces].
  change (c :: insertSpaces (isWordChar c) s)
    with ([c] ++ insertSpaces (isWordChar c) s).
  change (c :: s) with ([c] ++ s) at 2.
  rewrite !normalized_app, IH.
  now destruct (prev && groupStart (c :: s))%bool.
Qed.

Lemma normalized_formatFromCleaned (c : jsstring) :
  CleanedShape c -> normalized (formatFromCleaned c) = c.
Proof.
  intros Hs. pose proof (shape_chars c Hs) as Hc.
  rewrite <- (normalized_id c Hc) at 2. destruct Hs as [ds Hd|a b Ha Hb].
  - rewrite (formatFromCleaned_digits ds Hd). apply normalized_insertSpaces.
  - rewrite (formatFromCleaned_fraction a b Ha).
    change (DOT :: b) with ([DOT] ++ b). rewrite !normalized_app.
    unfold formatWithSpaces. now rewrite normalized_insertSpaces.
Qed.

(** [sanitize] looks at its argument through [normalized] only. *)
Lemma sanitize_normalized (props : Props) (r1 r2 : jsstring) :
  normalized r1 = normalized r2 -> sanitize props r1 = sanitize props r2.
Proof.
  intros H. unfold sanitize.
  change (replaceEach (fun c => negb (isDigit c || isDot c)) []
            (replaceEach isComma [DOT] r1)) with (normalized r1).
  change (replaceEach (fun c => negb (isDigit c || isDot c)) []
            (replaceEach isComma [DOT] r2)) with (normalized r2).
  now rewrite H.
Qed.

Lemma cleaned_fixpoint (props : Props) (raw : jsstring) :
  0 <= maxDecimals props ->
  cleaned (sanitize props (cleaned (sanitize props raw))) =
  cleaned (sanitize props raw).
Proof.
  intros Hmd. pose proof (normalized_chars raw) as Hc.
  destruct (type props) eqn:Ht.
  - rewrite (cleaned_integer _ raw Ht).
    pose proof (remove_dots_digits _ Hc) as Hd.
    rewrite (cleaned_integer _ _ Ht).
    rewrite (normalized_id _ (digits_digitOrDot _ Hd)).
    now apply remove_dots_id.
  - destruct (normalized_cases raw) as [Hn|(a & b & Hn & Ha)].
    + rewrite (cleaned_decimal_plain _ raw Ht Hn).
      rewrite (cleaned_decimal_plain _ _ Ht);
        rewrite (normalized_id _ Hc); auto.
    + rewrite (cleaned_decimal_split _ raw a b Ht Hn Ha).
      rewrite slice_truncate by assumption.
      rewrite Hn, forallb_app in Hc. cbn [forallb] in Hc.
      apply andb_true_iff in Hc as [Hca Hcb].
      apply andb_true_iff in Hcb as [_ Hcb].
      pose proof (no_dot_digits a Hca Ha) as Hda.
      pose proof (remove_dots_digits b Hcb) as Hdb.
      set (n := Z.to_nat (maxDecimals props)).
      set (f := firstn n (replaceEach isDot [] b)).
      assert (Hdf : allDigits f = true) by now apply forallb_firstn.
      rewrite (cleaned_decimal_split props _ a f Ht
                 (normalized_id _ (fraction_digitOrDot a f Hda Hdf)) Ha).
      rewrite slice_truncate by assumption.
      rewrite (remove_dots_id f Hdf). fold n. subst f.
      rewrite firstn_firstn, Nat.min_id. reflexivity.
Qed.

Lemma digitsOf_app (a b : jsstring) :
  digitsOf (a ++ b) = digitsOf a ++ digitsOf b.
Proof. unfold digitsOf. apply filter_app. Qed.

Lemma digitsOf_digits (s : jsstring) :
  allDigits s = true -> digitsOf s = s.
Proof. intros H. unfold digitsOf. now apply filter_all. Qed.

Lemma digitsOf_normalized (raw : jsstring) :
  digitsOf (normalized raw) = digitsOf raw.
Proof.
  induction raw as [|c raw IH]; [reflexivity|].
  change (c :: raw) with ([c] ++ raw).
  rewrite normalized_app, !digitsOf_app, IH. f_equal.
  unfold normalized, replaceEach, digitsOf. cbn [flat_map app].
  destruct (isComma c) eqn:Ec.
  - cbn. replace (isDigit c) with false; [reflexivity|].
    symmetry. charcases.
  - cbn [flat_map app]. destruct (isDigit c) eqn:Ed.
    + cbn. now rewrite Ed.
    + cbn [orb]. destruct (isDot c); cbn; now rewrite ?Ed.
Qed.

Lemma digitsOf_remove_dots (s : jsstring) :
  forallb digitOrDot s = true -> replaceEach isDot [] s = digitsOf s.
Proof.
  intros H. rewrite replaceEach_remove. unfold digitsOf.
  induction s as [|c s IH]; [reflexivity|].
  cbn [forallb filter] in *. apply andb_true_iff in H as [Hc Hs].
  rewrite (IH Hs). destruct (isDigit c) eqn:Ed.
  - now rewrite (digit_not_dot c Ed).
  - unfold digitOrDot in Hc. rewrite Ed in Hc. cbn [orb] in Hc.
    now rewrite Hc.
Qed.

Lemma normalized_without_separator (raw : jsstring) :
  existsb (fun x => (isDot x || isComma x)%bool) raw = false ->
  normalized raw = digitsOf raw /\
  forallb (fun x => negb (eqc x DOT)) (normalized raw) = true.
Proof.
  intros H. pose proof (normalized_chars raw) as Hc.
  assert (Hn : forallb (fun x => negb (eqc x DOT)) (normalized raw) = true).
  { destruct (normalized_cases raw) as [Hn|(a & b & Hn & _)]; [exact Hn|].
    exfalso.
    assert (Hin : In DOT (normalized raw))
      by (rewrite Hn; apply in_or_app; right; now left).
    unfold normalized in Hin.
    rewrite replaceEach_one, replaceEach_remove in Hin.
    apply filter_In in Hin as [Hin _].
    apply in_map_iff in Hin as (x & Hx & Hin).
    assert (E : existsb (fun x => (isDot x || isComma x)%bool) raw = true).
    { apply existsb_exists. exists x. split; [exact Hin|].
      destruct (isComma x); [apply orb_true_r|].
      subst x. reflexivity. }
    congruence. }
  split; [|exact Hn].
  rewrite <- digitsOf_normalized. symmetry. apply digitsOf_digits.
  now apply no_dot_digits.
Qed.

(** X3: the display string of a sanitized input parses back
    ([parseDisplay]) to the numeric value [sanitize] returned with it. *)
Theorem display_parses_to_numericValue (props : Props) (raw : jsstring) :
  parseDisplay (formatFromCleaned (cleaned (sanitize props raw)))
  = numericValue (sanitize props raw).
Proof.
  rewrite numericValue_parseCleaned.
  apply parseDisplay_formatFromCleaned, sanitize_shape.
Qed.

(** X4: for a digit count [maxDecimals >= 0], sanitising the display
    string of a sanitized input gives the same cleaned string and numeric
    value again: the grouping spaces are dropped and nothing else
    changes. *)
Theorem sanitize_of_display (props : Props) (raw : jsstring) :
  0 <= maxDecimals props ->
  sanitize props (formatFromCleaned (cleaned (sanitize props raw)))
  = sanitize props raw.
Proof.
  intros Hmd.
  rewrite (sanitize_normalized props _ (cleaned (sanitize props raw))).
  - rewrite (sanitize_eta props (cleaned (sanitize props raw))).
    rewrite (sanitize_eta props raw) at 3.
    now rewrite (cleaned_fixpoint props raw Hmd).
  - rewrite (normalized_formatFromCleaned _ (sanitize_shape props raw)).
    symmetry. apply normalized_id, shape_chars, sanitize_shape.
Qed.

Lemma sanitize_of_display_witness :
  0 <= maxDecimals defaultProps /\
  formatFromCleaned (cleaned (sanitize defaultProps (str "1234567,891")))
  = str "1 234 567.89" /\
  sanitize defaultProps
    (formatFromCleaned (cleaned (sanitize defaultProps (str "1234567,891"))))
  = sanitize defaultProps (str "1234567,891").
Proof.
  split; [vm_compute; discriminate|]. split; [reflexivity|].
  apply sanitize_of_display. vm_compute. discriminate.
Defined.

(** X5: with [type = integer] the cleaned string is exactly the digits of
    the raw input, in order; it contains no dot. *)
Theorem sanitize_integer_keeps_digits (props : Props) (raw : jsstring) :
  type props = integer ->
  cleaned (sanitize props raw) = digitsOf raw /\
  includes DOT (cleaned (sanitize props raw)) = false.
Proof.
  intros Ht. rewrite (cleaned_integer props raw Ht).
  rewrite (digitsOf_remove_dots _ (normalized_chars raw)).
  rewrite digitsOf_normalized. split; [reflexivity|].
  unfold includes, digitsOf. induction raw as [|c raw IH]; [reflexivity|].
  cbn [filter]. destruct (isDigit c) eqn:Ed; [|exact IH].
  cbn [existsb]. rewrite IH, orb_false_r.
  apply negb_true_iff. now apply digit_not_dot.
Qed.

Lemma sanitize_integer_keeps_digits_witness :
  let props := {| modelValue := None; type := integer; disabled := false;
                  max := None; maxLength := None; maxDecimals := 2 |} in
  type props = integer /\
  cleaned (sanitize props (str "1 2a3.4,5")) = str "12345".
Proof.
  intros props. split; [reflexivity|].
  rewrite (proj1 (sanitize_integer_keeps_digits props (str "1 2a3.4,5")
                    eq_refl)).
  reflexivity.
Defined.

(** X6: [sanitize] never invents or reorders digits: the digits of the
    cleaned string are a prefix of the digits of the raw input, and when
    the raw input has no dot and no comma the cleaned string is exactly
    the digits of the raw input. *)
Theorem sanitize_keeps_digit_order (props : Props) (raw : jsstring) :
  (exists dropped,
      digitsOf raw = digitsOf (cleaned (sanitize props raw)) ++ dropped) /\
  if existsb (fun x => (isDot x || isComma x)%bool) raw
  then True
  else cleaned (sanitize props raw) = digitsOf raw.
Proof.
  pose proof (normalized_chars raw) as Hc. split.
  - rewrite <- (digitsOf_normalized raw). destruct (type props) eqn:Ht.
    + exists []. rewrite (cleaned_integer props raw Ht), app_nil_r.
      rewrite (digitsOf_remove_dots _ Hc).
      symmetry. apply digitsOf_digits. apply forallb_filter.
    + destruct (normalized_cases raw) as [Hn|(a & b & Hn & Ha)].
      * exists []. now rewrite (cleaned_decimal_plain _ _ Ht Hn), app_nil_r.
      * rewrite (cleaned_decimal_split _ _ a b Ht Hn Ha), Hn.
        destruct (slice_is_prefix (replaceEach isDot [] b)
                    (maxDecimals props)) as [n ->].
        rewrite Hn, forallb_app in Hc. cbn [forallb] in Hc.
        apply andb_true_iff in Hc as [Hca Hcb].
        apply andb_true_iff in Hcb as [_ Hcb].
        pose proof (remove_dots_digits b Hcb) as Hdb.
        exists (skipn n (replaceEach isDot [] b)).
        change (DOT :: b) with ([DOT] ++ b).
        change (DOT :: firstn n (replaceEach isDot [] b))
          with ([DOT] ++ firstn n (replaceEach isDot [] b)).
        rewrite !digitsOf_app. change (digitsOf [DOT]) with (@nil char).
        cbn [app]. rewrite <- app_assoc. f_equal.
        rewrite (digitsOf_digits (firstn n _) (forallb_firstn _ n _ Hdb)).
        rewrite firstn_skipn. symmetry. now apply digitsOf_remove_dots.
  - destruct (existsb _ raw) eqn:E; [exact I|].
    destruct (normalized_without_separator raw E) as [Hd Hn].
    destruct (type props) eqn:Ht.
    + rewrite (cleaned_integer props raw Ht).
      rewrite (digitsOf_remove_dots _ Hc). apply digitsOf_normalized.
    + now rewrite (cleaned_decimal_plain _ _ Ht Hn).
Qed.

End RoundTripProperties.

(* ===================================================================== *)
(** ** The caret after an accepted edit, and the key filter *)
(* ===================================================================== *)

Module EditingProperties.
Import JS JSFacts Properties NumberFacts NumericInput SanitizeFacts.
Import SanitizeProperties FormatProperties HandlerProperties.
Import GroupingProperties RoundTripProperties.

Lemma nonSpaceCount_cons (c : char) (s : jsstring) :
  nonSpaceCount (c :: s) =
  ((if isSpace c then 0 else 1) + nonSpaceCount s)%nat.
Proof.
  unfold nonSpaceCount, countMatches. cbn [filter].
  now destruct (isSpace c).
Qed.

Lemma advance_zero (s : jsstring) : advance s 0 = 0%nat.
Proof. now destruct s. Qed.

Lemma advance_le (s : jsstring) (m : nat) : (advance s m <= length s)%nat.
Proof.
  revert m. induction s as [|c s IH]; intros [|m]; cbn [advance length];
    try lia.
  specialize (IH (if isSpace c then S m else m)). lia.
Qed.

Lemma advance_count (s : jsstring) (m : nat) :
  nonSpaceCount (firstn (advance s m) s) = Nat.min m (nonSpaceCount s).
Proof.
  revert m. induction s as [|c s IH]; intros [|m]; try reflexivity.
  cbn [advance firstn]. rewrite !nonSpaceCount_cons, IH.
  destruct (isSpace c); lia.
Qed.

Lemma advance_stops_after_character (s : jsstring) (m : nat) :
  (advance s m < length s)%nat ->
  advance s m = 0%nat \/
  exists c, nth_error s (advance s m - 1) = Some c /\ isSpace c = false.
Proof.
  revert m. induction s as [|c s IH]; intros [|m]; cbn [advance length];
    try (now left).
  intros H. right.
  remember (if isSpace c then S m else m) as m' eqn:Em.
  destruct (advance s m') as [|k] eqn:Ek.
  - exists c. split; [reflexivity|].
    destruct (isSpace c) eqn:Ec; [|reflexivity]. subst m'.
    destruct s as [|y s]; [cbn in H; lia|]. cbn [advance] in Ek. lia.
  - destruct (IH m' ltac:(lia)) as [E|(x & Hx & Hs)]; [lia|].
    exists x. split; [|exact Hs]. rewrite Ek in Hx.
    cbn [Nat.sub nth_error] in *. now rewrite Nat.sub_0_r in *.
Qed.




Lemma endsWith_last (x c : char) (s : jsstring) :
  endsWith x (s ++ [c]) = eqc c x.
Proof. unfold endsWith. now rewrite rev_app_distr. Qed.








(** X8: the new caret lies within the new display string; the number of
    non-space characters before it is [charsBeforeCursor], or all of them
    when the new display has fewer; and unless it is at offset 0 or at
    the end, the character just before it is not a space. *)
Theorem caret_after_same_number_of_characters
    (old : jsstring) (pos : nat) (new : jsstring) :
  let p := newCursorPos old pos new in
  (p <= length new)%nat /\
  nonSpaceCount (firstn p new)
  = Nat.min (charsBeforeCursor old pos) (nonSpaceCount new) /\
  (p = 0%nat \/ p = length new \/
   exists c, nth_error new (p - 1) = Some c /\ isSpace c = false).
Proof.
  intros p. subst p. rewrite newCursorPos_advance.
  split; [apply advance_le|]. split; [apply advance_count|].
  pose proof (advance_le new (charsBeforeCursor old pos)) as Hle.
  destruct (Nat.eq_dec (advance new (charsBeforeCursor old pos))
              (length new)) as [E|E]; [now right; left|].
  destruct (advance_stops_after_character new (charsBeforeCursor old pos)
              ltac:(lia)) as [H|H]; [now left|now right; right].
Qed.



End EditingProperties.

(* ===================================================================== *)
(** ** Keys, blur, external values and whole sessions *)
(* ===================================================================== *)

Module SessionProperties.
Import JS JSFacts Properties NumberFacts NumericInput SanitizeFacts.
Import SanitizeProperties FormatProperties HandlerProperties.
Import GroupingProperties RoundTripProperties EditingProperties.

(** *** Key filter *)

(** X10: on a field that is not disabled, a key pressed without Ctrl or
    Meta that is not one of the navigation and deletion keys keeps its
    default action exactly when it is a single digit, or when it is ["."]
    or [","] on a decimal field whose display has no dot yet. *)
Theorem onKeyDown_lets_through (props : Props) (event : KeyboardEvent)
    (st : State) :
  disabled props = false ->
  existsb (eqs (key event)) allowedKeys = false ->
  ctrlKey event = false -> metaKey event = false ->
  snd (onKeyDown props event st) =
  negb (isOneDigit (key event)
        || ((eqs (key event) [DOT] || eqs (key event) [COMMA])
            && match type props with
               | decimal => negb (includes DOT (displayValue st))
               | integer => false
               end)).
Proof.
  intros Hd Ha Hc Hm. unfold onKeyDown. rewrite Hd, Ha, Hc, Hm. cbn [orb].
  assert (Hsep : (eqs (key event) [DOT] || eqs (key event) [COMMA])%bool
                 = true -> isOneDigit (key event) = false).
  { intros H. apply orb_true_iff in H as [H|H]; apply eqs_eq in H;
      rewrite H; reflexivity. }
  destruct (eqs (key event) [DOT] || eqs (key event) [COMMA])%bool.
  - rewrite (Hsep eq_refl). destruct (type props); cbn.
    + reflexivity.
    + now rewrite negb_involutive.
  - destruct (type props); cbn; now rewrite orb_false_r.
Qed.

Lemma onKeyDown_lets_through_witness :
  let st := {| displayValue := str "1.5"; isFocused := true;
               hasError := false;
               input := {| value := str "1.5"; selectionStart := Some 3%nat |};
               emitted := []; widthUpdatePending := false |} in
  snd (onKeyDown defaultProps {| key := str "7"; ctrlKey := false;
                                 metaKey := false |} st) = false /\
  snd (onKeyDown defaultProps {| key := str "."; ctrlKey := false;
                                 metaKey := false |} st) = true /\
  snd (onKeyDown defaultProps {| key := str "a"; ctrlKey := false;
                                 metaKey := false |} st) = true.
Proof.
  intros st. split; [|split].
  - now rewrite (onKeyDown_lets_through defaultProps
                   {| key := str "7"; ctrlKey := false; metaKey := false |}
                   st eq_refl eq_refl eq_refl eq_refl).
  - now rewrite (onKeyDown_lets_through defaultProps
                   {| key := str "."; ctrlKey := false; metaKey := false |}
                   st eq_refl eq_refl eq_refl eq_refl).
  - now rewrite (onKeyDown_lets_through defaultProps
                   {| key := str "a"; ctrlKey := false; metaKey := false |}
                   st eq_refl eq_refl eq_refl eq_refl).
Defined.

(** X11: [onKeyDown] never changes the display, the field, the focus or
    the emitted events, and never raises the error flag; the navigation
    and deletion keys clear it and are never prevented on a field that is
    not disabled. *)
Theorem onKeyDown_only_clears_error (props : Props) (event : KeyboardEvent)
    (st : State) :
  let st' := fst (onKeyDown props event st) in
  displayValue st' = displayValue st /\
  input st' = input st /\
  isFocused st' = isFocused st /\
  emitted st' = emitted st /\
  (hasError st' = hasError st \/ hasError st' = false) /\
  if (negb (disabled props) && existsb (eqs (key event)) allowedKeys)%bool
  then hasError st' = false /\ snd (onKeyDown props event st) = false
  else True.
Proof.
  intros st'. subst st'. unfold onKeyDown.
  destruct (disabled props); cbn [negb andb fst snd];
    [repeat split; auto|].
  destruct (existsb _ allowedKeys);
    [cbn; repeat split; auto|].
  destruct (ctrlKey event || metaKey event)%bool;
    [cbn; repeat split; auto|].
  destruct (type props),
    (eqs (key event) [DOT] || eqs (key event) [COMMA])%bool;
    cbn; repeat split; auto.
Qed.

(** *** Blur *)

Lemma insertSpaces_chars (prev : bool) (s : jsstring) :
  allDigits s = true ->
  forallb (fun c => (isDigit c || isSpace c)%bool) (insertSpaces prev s)
  = true.
Proof.
  revert prev. induction s as [|c s IH]; intros prev H; [reflexivity|].
  rewrite allDigits_cons in H. apply andb_true_iff in H as [Hc Hs].
  cbn [insertSpaces]. rewrite forallb_app. cbn [forallb].
  rewrite Hc, (IH _ Hs). cbn [orb andb].
  now destruct (prev && groupStart (c :: s))%bool.
Qed.

Lemma endsWith_in (x : char) (s : jsstring) :
  endsWith x s = true -> In x s.
Proof.
  intros H. apply endsWith_snoc in H as [d ->].
  apply in_or_app. right. now left.
Qed.

Lemma grouped_digits_no_trailing_dot (s : jsstring) :
  forallb (fun c => (isDigit c || isSpace c)%bool) s = true ->
  endsWith DOT s = false.
Proof.
  intros H. destruct (endsWith DOT s) eqn:E; [|reflexivity].
  apply endsWith_in in E.
  pose proof (proj1 (forallb_forall _ _) H DOT E) as C. discriminate.
Qed.

(** What [onBlur] does to a well-formed display. *)
Lemma blurred_display (d : jsstring) :
  WellFormedDisplay d ->
  let d' := if endsWith DOT d then slice d 0 (Some (-1)) else d in
  WellFormedDisplay d' /\ endsWith DOT d' = false /\
  parseDisplay d' = parseDisplay d /\
  getDigitCount d' = getDigitCount d.
Proof.
  intros (c & Hs & ->) d'. subst d'. destruct Hs as [ds Hd|a b Ha Hb].
  - rewrite (formatFromCleaned_digits ds Hd).
    pose proof (grouped_digits_no_trailing_dot _
                  (insertSpaces_chars false ds Hd)) as E.
    unfold formatWithSpaces in *. rewrite E.
    split; [|split; [exact E|split; reflexivity]].
    exists ds. split; [now apply shape_digits|].
    now rewrite (formatFromCleaned_digits ds Hd).
  - rewrite (formatFromCleaned_fraction a b Ha).
    pose proof (insertSpaces_chars false a Ha) as Hg.
    destruct b as [|y b] using rev_ind.
    + rewrite endsWith_last. change (eqc DOT DOT) with true.
      rewrite slice_drop_last.
      split; [|split; [|split]].
      * exists a. split; [now apply shape_digits|].
        now rewrite (formatFromCleaned_digits a Ha).
      * now apply grouped_digits_no_trailing_dot.
      * symmetry. now apply parseDisplay_trailing_dot.
      * unfold getDigitCount. rewrite replaceEach_app.
        change (replaceEach (fun c => negb (isDigit c)) [] [DOT])
          with (@nil char).
        now rewrite app_nil_r.
    + clear IHb. rewrite app_comm_cons, app_assoc, endsWith_last.
      rewrite allDigits_app in Hb. apply andb_true_iff in Hb as [Hb Hy].
      rewrite allDigits_cons, andb_true_r in Hy.
      pose proof (digit_not_dot y Hy) as Hyd.
      apply negb_true_iff in Hyd. unfold isDot in Hyd. rewrite Hyd.
      split; [|split; [|split; reflexivity]].
      * exists (a ++ DOT :: b ++ [y]). split.
        -- apply shape_fraction; [exact Ha|].
           now rewrite allDigits_app, Hb, allDigits_cons, Hy.
        -- rewrite (formatFromCleaned_fraction a (b ++ [y]) Ha).
           now rewrite app_comm_cons, app_assoc.
      * now rewrite endsWith_last.
Qed.

Lemma onBlur_display (st : State) :
  displayValue (onBlur st) =
  (if endsWith DOT (displayValue st)
   then slice (displayValue st) 0 (Some (-1)) else displayValue st) /\
  emitted (onBlur st) = emitted st ++ [blur] /\
  hasError (onBlur st) = false /\
  isFocused (onBlur st) = false.
Proof.
  unfold onBlur. cbn [setHasError setIsFocused displayValue].
  destruct (endsWith DOT (displayValue st)); repeat split.
Qed.

(** X12: a blur on a well-formed display leaves a well-formed display
    that does not end with a dot and parses to the same value; only a
    trailing dot is ever removed, and only [blur] is emitted. *)
Theorem onBlur_commits_display (st : State) :
  WellFormedDisplay (displayValue st) ->
  WellFormedDisplay (displayValue (onBlur st)) /\
  endsWith DOT (displayValue (onBlur st)) = false /\
  parseDisplay (displayValue (onBlur st)) = parseDisplay (displayValue st) /\
  (displayValue (onBlur st) = displayValue st \/
   displayValue st = displayValue (onBlur st) ++ [DOT]) /\
  emitted (onBlur st) = emitted st ++ [blur].
Proof.
  intros Hw. destruct (onBlur_display st) as (Hd & He & _ & _).
  destruct (blurred_display _ Hw) as (H1 & H2 & H3 & _).
  rewrite Hd, He. repeat split; try assumption.
  destruct (endsWith DOT (displayValue st)) eqn:E; [|now left].
  right. apply endsWith_snoc in E as [d E]. rewrite E.
  now rewrite slice_drop_last.
Qed.

Lemma onBlur_commits_display_witness :
  let st := {| displayValue := str "1 234."; isFocused := true;
               hasError := false;
               input := {| value := str "1 234.";
                           selectionStart := Some 6%nat |};
               emitted := []; widthUpdatePending := false |} in
  WellFormedDisplay (displayValue st) /\
  displayValue (onBlur st) = str "1 234" /\
  parseDisplay (displayValue (onBlur st)) = parseDisplay (str "1 234.").
Proof.
  intros st.
  assert (Hw : WellFormedDisplay (displayValue st)).
  { exists (str "1234."). split; [|reflexivity].
    exact (shape_fraction (str "1234") [] eq_refl eq_refl). }
  destruct (onBlur_commits_display st Hw) as (_ & _ & H3 & _ & _).
  split; [exact Hw|]. split; [reflexivity|exact H3].
Defined.

(** *** External values *)

Lemma parseCleaned_value (c : jsstring) (n : number) :
  CleanedShape c -> parseCleaned c = Some n ->
  isFinite n = true /\ signClear n = true.
Proof.
  intros Hs. unfold parseCleaned.
  destruct (eqs c []) eqn:E1; [discriminate|].
  destruct (eqs c [DOT]) eqn:E2; [discriminate|]. cbn [negb andb].
  apply eqs_neq in E1, E2.
  destruct (isFinite (Number c)) eqn:Hf; [|discriminate].
  intros [= <-]. split; [exact Hf|].
  now apply Number_cleaned_signClear.
Qed.

Lemma echo_is_equal (c : jsstring) :
  CleanedShape c ->
  strictNotEquals (toModelValue (parseCleaned c)) (parseCleaned c) = false.
Proof.
  intros Hs. destruct (parseCleaned c) as [n|] eqn:E; [|reflexivity].
  destruct (parseCleaned_value c n Hs E) as [_ Hsign].
  cbn [toModelValue strictNotEquals].
  now rewrite (signClear_strictEquals n Hsign).
Qed.

(** X13: the value emitted by an accepted edit, given back to the field
    as its [modelValue], never rewrites what the user typed: the watcher
    leaves the state as it is, whether the field still has the focus or
    has been blurred in between. *)
Theorem watch_ignores_echo (toString : number -> jsstring)
    (props : Props) (st : State) :
  disabled props = false ->
  checkLimit props (cleaned (sanitize props (value (input st))))
    (numericValue (sanitize props (value (input st)))) = false ->
  let v := toModelValue (numericValue (sanitize props (value (input st)))) in
  watchModelValue toString v (onInput props st) = onInput props st /\
  watchModelValue toString v (onBlur (onInput props st))
  = onBlur (onInput props st).
Proof.
  intros Hd Hl v. subst v.
  pose proof (sanitize_shape props (value (input st))) as Hs.
  pose proof (echo_is_equal _ Hs) as He.
  pose proof (parseDisplay_formatFromCleaned _ Hs) as Hp.
  assert (Hdisp : displayValue (onInput props st) =
                  formatFromCleaned
                    (cleaned (sanitize props (value (input st))))).
  { unfold onInput. rewrite Hd.
    destruct (sanitize props (value (input st))) as [c n].
    cbn [cleaned numericValue] in *. now rewrite Hl. }
  rewrite numericValue_parseCleaned. split.
  - unfold watchModelValue.
    destruct (isFocused (onInput props st)); [reflexivity|].
    now rewrite Hdisp, Hp, He.
  - unfold watchModelValue.
    destruct (isFocused (onBlur (onInput props st))); [reflexivity|].
    destruct (onBlur_display (onInput props st)) as (Hb & _).
    assert (Hw : WellFormedDisplay (displayValue (onInput props st)))
      by (rewrite Hdisp; eexists; eauto).
    destruct (blurred_display _ Hw) as (_ & _ & Hpb & _).
    rewrite Hb, Hpb, Hdisp, Hp, He. reflexivity.
Qed.

Lemma watch_ignores_echo_witness :
  let st := {| displayValue := str "1.5"; isFocused := true;
               hasError := false;
               input := {| value := str "1.50";
                           selectionStart := Some 4%nat |};
               emitted := []; widthUpdatePending := false |} in
  let shortest := fun _ : number => str "1.5" in
  displayValue (onInput defaultProps st) = str "1.50" /\
  displayValue
    (watchModelValue shortest (mv_number (Number (str "1.50")))
       (onBlur (onInput defaultProps st))) = str "1.50".
Proof.
  intros st shortest. split; [vm_compute; reflexivity|].
  destruct (watch_ignores_echo shortest defaultProps st eq_refl
              ltac:(vm_compute; reflexivity)) as [_ H].
  change (toModelValue
            (numericValue (sanitize defaultProps (value (input st)))))
    with (mv_number (Number (str "1.50"))) in H.
  rewrite H. vm_compute. reflexivity.
Defined.

Lemma splitAt_spec (p : char -> bool) (s : jsstring) :
  match splitAt p s with
  | (a, None) => s = a /\ forallb (fun c => negb (p c)) a = true
  | (a, Some r) =>
      exists c, p c = true /\ s = a ++ c :: r /\
                forallb (fun c => negb (p c)) a = true
  end.
Proof.
  induction s as [|x s IH]; cbn [splitAt]; [now split|].
  destruct (p x) eqn:Ex.
  - exists x. now repeat split.
  - destruct (splitAt p s) as [a [r|]].
    + destruct IH as (c & Hc & -> & Ha). exists c.
      cbn [forallb]. now rewrite Ex, Ha.
    + destruct IH as [-> Ha]. cbn [forallb]. now rewrite Ex, Ha.
Qed.

Lemma countMatches_zero (p : char -> bool) (s : jsstring) :
  countMatches p s = 0%nat -> forallb (fun c => negb (p c)) s = true.
Proof.
  unfold countMatches. induction s as [|c s IH]; [reflexivity|].
  cbn [filter forallb]. destruct (p c); [discriminate|]. exact IH.
Qed.

Lemma stripSpaces_without_space (s : jsstring) :
  includes SPACE s = false -> stripSpaces s = s.
Proof.
  intros H. unfold stripSpaces. rewrite replaceEach_remove.
  apply filter_all. unfold includes in H.
  induction s as [|c s IH]; [reflexivity|]. cbn [existsb forallb] in *.
  apply orb_false_iff in H as [Hc Hs].
  change (isSpace c) with (eqc c SPACE). now rewrite Hc, (IH Hs).
Qed.

(** X14: [formatNumber] of [null] or [undefined] is the empty string, and
    for a number whose decimal string has no space and at most one dot
    (as the strings of Number::toString are) removing the spaces from
    [formatNumber] gives that string back. *)
Theorem formatNumber_strips_to_toString (toString : number -> jsstring)
    (n : number) :
  includes SPACE (toString n) = false ->
  (countMatches isDot (toString n) <= 1)%nat ->
  stripSpaces (formatNumber toString (mv_number n)) = toString n /\
  formatNumber toString mv_null = [] /\
  formatNumber toString mv_undefined = [].
Proof.
  intros Hsp Hdot. split; [|now split].
  transitivity (stripSpaces (toString n));
    [|now apply stripSpaces_without_space].
  clear Hsp. unfold formatNumber, stripSpaces.
  pose proof (splitAt_spec isDot (toString n)) as Hs.
  destruct (splitAt isDot (toString n)) as [a [r|]].
  - destruct Hs as (c & Hc & Hs & Ha). rewrite Hs in *.
    apply eqc_eq in Hc. subst c.
    change (a ++ DOT :: r) with (a ++ [DOT] ++ r) in Hdot.
    rewrite !countMatches_app in Hdot.
    assert (Hr : countMatches isDot r = 0%nat)
      by (change (countMatches isDot [DOT]) with 1%nat in Hdot; lia).
    rewrite (splitAt_none isDot r (countMatches_zero _ _ Hr)). cbn [fst].
    change (a ++ DOT :: r) with (a ++ [DOT] ++ r).
    rewrite !replaceEach_app. unfold formatWithSpaces.
    now rewrite strip_insertSpaces.
  - destruct Hs as [-> _]. unfold formatWithSpaces.
    now rewrite strip_insertSpaces.
Qed.

Lemma formatNumber_strips_to_toString_witness :
  let toString := fun _ : number => str "-1234567.25" in
  includes SPACE (toString posZero) = false /\
  (countMatches isDot (toString posZero) <= 1)%nat /\
  formatNumber toString (mv_number posZero) = str "-1 234 567.25" /\
  stripSpaces (formatNumber toString (mv_number posZero))
  = str "-1234567.25".
Proof.
  intros toString. split; [reflexivity|]. split; [vm_compute; lia|].
  split; [reflexivity|].
  apply (formatNumber_strips_to_toString toString posZero eq_refl).
  vm_compute. lia.
Defined.

(** *** Sessions *)

Lemma run_invariant (props : Props) (I : State -> Prop) :
  (forall st e, I st -> I (dispatch props st e)) ->
  forall es st, I st -> I (run props st es).
Proof.
  intros Hstep. induction es as [|e es IH]; intros st H; [exact H|].
  apply IH. now apply Hstep.
Qed.

Lemma lastUpdate_snoc (es : list Emit) (e : Emit) :
  lastUpdate (es ++ [e]) =
  match e with
  | update_modelValue v => Some v
  | _ => lastUpdate es
  end.
Proof.
  induction es as [|x es IH]; [now destruct e|].
  cbn [app lastUpdate]. rewrite IH. now destruct e.
Qed.

Lemma updateValues_snoc (es : list Emit) (e : Emit) :
  updateValues (es ++ [e]) =
  updateValues es ++ match e with
                     | update_modelValue v => [v]
                     | _ => []
                     end.
Proof.
  induction es as [|x es IH].
  - destruct e; reflexivity.
  - cbn [app updateValues]. destruct x; rewrite IH; reflexivity.
Qed.

(** The three outcomes of [onInput]. *)
Lemma onInput_cases (props : Props) (st : State) :
  let r := sanitize props (value (input st)) in
  let st' := onInput props st in
  (disabled props = true /\ st' = st) \/
  (disabled props = false /\
   checkLimit props (cleaned r) (numericValue r) = true /\
   displayValue st' = displayValue st /\ emitted st' = emitted st /\
   hasError st' = true) \/
  (disabled props = false /\
   checkLimit props (cleaned r) (numericValue r) = false /\
   displayValue st' = formatFromCleaned (cleaned r) /\
   emitted st' = emitted st ++ [update_modelValue (numericValue r)] /\
   hasError st' = false).
Proof.
  intros r st'. subst r st'. unfold onInput.
  destruct (disabled props); [now left|]. right.
  destruct (sanitize props (value (input st))) as [c v].
  cbn [cleaned numericValue].
  destruct (checkLimit props c v); [left|right]; now repeat split.
Qed.

Lemma onKeyDown_effect (props : Props) (event : KeyboardEvent) (st : State) :
  let st' := fst (onKeyDown props event st) in
  displayValue st' = displayValue st /\ emitted st' = emitted st /\
  (hasError st' = hasError st \/ hasError st' = false).
Proof.
  intros st'. subst st'. unfold onKeyDown.
  destruct (disabled props); [cbn; auto|].
  destruct (existsb _ allowedKeys); [cbn; auto|].
  destruct (ctrlKey event || metaKey event)%bool; [cbn; auto|].
  destruct (type props),
    (eqs (key event) [DOT] || eqs (key event) [COMMA])%bool; cbn; auto.
Qed.

(** What an event does to the display, the events and the error flag. *)
Lemma dispatch_cases (props : Props) (st : State) (e : UserEvent) :
  let st' := dispatch props st e in
  (displayValue st' = displayValue st /\
   (emitted st' = emitted st \/ emitted st' = emitted st ++ [focus]) /\
   (hasError st' = hasError st \/ hasError st' = false)) \/
  (displayValue st' =
   (if endsWith DOT (displayValue st)
    then slice (displayValue st) 0 (Some (-1)) else displayValue st) /\
   emitted st' = emitted st ++ [blur] /\ hasError st' = false) \/
  (exists r,
      disabled props = false /\
      checkLimit props (cleaned r) (numericValue r) = true /\
      displayValue st' = displayValue st /\ emitted st' = emitted st /\
      hasError st' = true) \/
  (exists raw,
      disabled props = false /\
      checkLimit props (cleaned (sanitize props raw))
        (numericValue (sanitize props raw)) = false /\
      displayValue st' = formatFromCleaned (cleaned (sanitize props raw)) /\
      emitted st' =
      emitted st ++ [update_modelValue (numericValue (sanitize props raw))] /\
      hasError st' = false).
Proof.
  intros st'. subst st'. destruct e as [| |text caret|event];
    cbn [dispatch].
  - left. cbn. auto.
  - right. left. destruct (onBlur_display st) as (H1 & H2 & H3 & _). auto.
  - destruct (onInput_cases props
                (setInput {| value := text; selectionStart := caret |} st))
      as [[_ ->]|[(Hd & Hl & H1 & H2 & H3)|(Hd & Hl & H1 & H2 & H3)]].
    + left. cbn. auto.
    + right. right. left. eexists. repeat split; eauto.
    + right. right. right. exists text. repeat split; eauto.
  - left. destruct (onKeyDown_effect props event st) as (H1 & H2 & H3). auto.
Qed.

Lemma lastUpdate_unchanged (es es' : list Emit) :
  es' = es \/ es' = es ++ [focus] -> lastUpdate es' = lastUpdate es.
Proof. intros [->| ->]; [reflexivity|apply lastUpdate_snoc]. Qed.

Lemma updateValues_unchanged (es es' : list Emit) :
  es' = es \/ es' = es ++ [focus] -> updateValues es' = updateValues es.
Proof.
  intros [->| ->]; [reflexivity|].
  rewrite updateValues_snoc. apply app_nil_r.
Qed.

Lemma getDigitCount_display (c : jsstring) :
  getDigitCount (formatFromCleaned c) = getDigitCount c.
Proof.
  unfold getDigitCount. now rewrite strip_formatFromCleaned.
Qed.

Lemma getDigitCount_blurred (d : jsstring) :
  getDigitCount (if endsWith DOT d then slice d 0 (Some (-1)) else d)
  = getDigitCount d.
Proof.
  destruct (endsWith DOT d) eqn:E; [|reflexivity].
  apply endsWith_snoc in E as [d0 ->]. rewrite slice_drop_last.
  unfold getDigitCount. rewrite replaceEach_app.
  change (replaceEach (fun c => negb (isDigit c)) [] [DOT]) with (@nil char).
  now rewrite app_nil_r.
Qed.

Lemma checkLimit_without_limit (props : Props) (c : jsstring)
    (v : option number) :
  limitType props = LimitType.none -> checkLimit props c v = false.
Proof.
  unfold checkLimit, limitType.
  destruct (max props); [discriminate|].
  now destruct (maxLength props).
Qed.

(** X15: through any sequence of user events, a well-formed display stays
    well-formed, and the display parses to the value of the last
    [update:modelValue] emitted: what the parent was told last is what
    the field shows. *)
Theorem session_display_matches_last_update
    (props : Props) (st : State) (es : list UserEvent) :
  WellFormedDisplay (displayValue st) ->
  (forall v, lastUpdate (emitted st) = Some v ->
             parseDisplay (displayValue st) = v) ->
  WellFormedDisplay (displayValue (run props st es)) /\
  (forall v, lastUpdate (emitted (run props st es)) = Some v ->
             parseDisplay (displayValue (run props st es)) = v).
Proof.
  intros Hw Hl.
  apply (run_invariant props
           (fun s => WellFormedDisplay (displayValue s) /\
                     (forall v, lastUpdate (emitted s) = Some v ->
                                parseDisplay (displayValue s) = v)));
    [|now split].
  clear. intros st e [Hw Hl].
  destruct (dispatch_cases props st e)
    as [(Hd & He & _)|[(Hd & He & _)|[(r & _ & _ & Hd & He & _)
       |(raw & _ & _ & Hd & He & _)]]].
  - rewrite Hd, (lastUpdate_unchanged _ _ He). now split.
  - destruct (blurred_display _ Hw) as (H1 & _ & H3 & _).
    rewrite Hd, He, lastUpdate_snoc, H3. now split.
  - rewrite Hd, He. now split.
  - rewrite Hd, He, lastUpdate_snoc. split.
    + eexists. split; [apply sanitize_shape|reflexivity].
    + intros v [= <-].
      exact (parseDisplay_formatFromCleaned _ (sanitize_shape props raw)).
Qed.

Lemma session_display_matches_last_update_witness :
  let es := [user_focus; user_input (str "1") (Some 1%nat);
             user_input (str "1.") (Some 2%nat); user_blur] in
  WellFormedDisplay (displayValue emptyField) /\
  displayValue (run defaultProps emptyField es) = str "1" /\
  parseDisplay (displayValue (run defaultProps emptyField es))
  = Some (Number (str "1.")).
Proof.
  intros es.
  assert (Hw : WellFormedDisplay (displayValue emptyField)).
  { exists []. split; [now apply shape_digits|reflexivity]. }
  destruct (session_display_matches_last_update defaultProps emptyField es
              Hw ltac:(discriminate)) as [_ H].
  split; [exact Hw|]. split; [vm_compute; reflexivity|].
  apply H. vm_compute. reflexivity.
Defined.

(** X16: with only [maxLength] configured, a display with at most
    [maxLength] digits never gets more than that through any sequence of
    user events. *)
Theorem session_respects_maxLength
    (props : Props) (l : Z) (st : State) (es : list UserEvent) :
  max props = None -> maxLength props = Some l ->
  Z.of_nat (getDigitCount (displayValue st)) <= l ->
  Z.of_nat (getDigitCount (displayValue (run props st es))) <= l.
Proof.
  intros Hm Hl.
  apply (run_invariant props
           (fun s => Z.of_nat (getDigitCount (displayValue s)) <= l)).
  intros s e H.
  destruct (dispatch_cases props s e)
    as [(Hd & _)|[(Hd & _)|[(r & _ & _ & Hd & _)
       |(raw & _ & Hc & Hd & _)]]].
  - now rewrite Hd.
  - now rewrite Hd, getDigitCount_blurred.
  - now rewrite Hd.
  - rewrite Hd, getDigitCount_display.
    unfold checkLimit, limitType in Hc. rewrite Hm, Hl in Hc.
    destruct (Z.gtb_spec
                (Z.of_nat (getDigitCount (cleaned (sanitize props raw)))) l);
      [discriminate|lia].
Qed.

Lemma session_respects_maxLength_witness :
  let props := {| modelValue := None; type := decimal; disabled := false;
                  max := None; maxLength := Some 3; maxDecimals := 2 |} in
  let es := [user_input (str "12") (Some 2%nat);
             user_input (str "123") (Some 3%nat);
             user_input (str "1234") (Some 4%nat);
             user_input (str "123.4") (Some 5%nat)] in
  displayValue (run props emptyField es) = str "123" /\
  hasError (run props emptyField es) = true /\
  Z.of_nat (getDigitCount (displayValue (run props emptyField es))) <= 3.
Proof.
  intros props es. split; [vm_compute; reflexivity|].
  split; [vm_compute; reflexivity|].
  apply (session_respects_maxLength props 3 emptyField es eq_refl eq_refl).
  vm_compute. discriminate.
Defined.

(** X17: every value emitted with [update:modelValue] during a session is
    [null] or a finite Number with a clear sign bit, and, when [max] is
    configured, not greater than [max]. *)
Theorem session_emits_acceptable_values
    (props : Props) (st : State) (es : list UserEvent) :
  Forall (acceptableValue props) (updateValues (emitted st)) ->
  Forall (acceptableValue props)
    (updateValues (emitted (run props st es))).
Proof.
  apply (run_invariant props
           (fun s => Forall (acceptableValue props)
                       (updateValues (emitted s)))).
  intros s e H.
  destruct (dispatch_cases props s e)
    as [(_ & He & _)|[(_ & He & _)|[(r & _ & _ & _ & He & _)
       |(raw & _ & Hc & _ & He & _)]]].
  - now rewrite (updateValues_unchanged _ _ He).
  - now rewrite He, updateValues_snoc, app_nil_r.
  - now rewrite He.
  - rewrite He, updateValues_snoc. apply Forall_app. split; [exact H|].
    constructor; [|constructor].
    rewrite numericValue_parseCleaned in *. unfold acceptableValue.
    destruct (parseCleaned (cleaned (sanitize props raw))) as [n|] eqn:E;
      [|exact I].
    destruct (parseCleaned_value _ n (sanitize_shape props raw) E)
      as [Hf Hs].
    repeat split; try assumption.
    unfold checkLimit, limitType in Hc.
    destruct (max props) as [m|]; [exact Hc|exact I].
Qed.

Lemma session_emits_acceptable_values_witness :
  let es := [user_input (str "99") (Some 2%nat);
             user_input (str "999") (Some 3%nat);
             user_input (str "") (Some 0%nat)] in
  updateValues (emitted (run (maxHundred false) emptyField es))
  = [Some (Number (str "99")); None] /\
  Forall (acceptableValue (maxHundred false))
    (updateValues (emitted (run (maxHundred false) emptyField es))).
Proof.
  intros es. split; [vm_compute; reflexivity|].
  apply session_emits_acceptable_values. constructor.
Defined.

(** X18: without a configured limit the error flag is never raised. *)
Theorem session_without_limit_has_no_error
    (props : Props) (st : State) (es : list UserEvent) :
  limitType props = LimitType.none -> hasError st = false ->
  hasError (run props st es) = false.
Proof.
  intros Hn.
  apply (run_invariant props (fun s => hasError s = false)).
  intros s e H.
  destruct (dispatch_cases props s e)
    as [(_ & _ & [Hh|Hh])|[(_ & _ & Hh)|[(r & _ & Hc & _)
       |(raw & _ & _ & _ & _ & Hh)]]]; try congruence.
  rewrite (checkLimit_without_limit props _ _ Hn) in Hc. discriminate.
Qed.

Lemma session_without_limit_has_no_error_witness :
  limitType defaultProps = LimitType.none /\
  hasError (run defaultProps emptyField
              [user_input (str "123456789012345678901234567890")
                 (Some 30%nat)]) = false.
Proof.
  split; [reflexivity|].
  now apply session_without_limit_has_no_error.
Defined.

(** X19: a disabled field emits no [update:modelValue], keeps its
    digits and never raises the error flag, whatever the user events. *)
Theorem session_disabled_is_inert
    (props : Props) (st : State) (es : list UserEvent) :
  disabled props = true ->
  updateValues (emitted (run props st es)) = updateValues (emitted st) /\
  digitsOf (displayValue (run props st es)) = digitsOf (displayValue st) /\
  (hasError st = false -> hasError (run props st es) = false).
Proof.
  intros Hd.
  apply (run_invariant props
           (fun s => updateValues (emitted s) = updateValues (emitted st) /\
                     digitsOf (displayValue s) = digitsOf (displayValue st) /\
                     (hasError st = false -> hasError s = false)));
    [|now repeat split].
  intros s e (H1 & H2 & H3).
  destruct (dispatch_cases props s e)
    as [(Hv & He & Hh)|[(Hv & He & Hh)|[(r & Hx & _)|(raw & Hx & _)]]].
  - rewrite Hv, (updateValues_unchanged _ _ He).
    split; [exact H1|]. split; [exact H2|].
    intros H. destruct Hh as [Hh|Hh]; rewrite Hh; auto.
  - rewrite Hv, He, updateValues_snoc, app_nil_r.
    split; [exact H1|]. split; [|intros _; exact Hh].
    rewrite <- H2. destruct (endsWith DOT (displayValue s)) eqn:E;
      [|reflexivity].
    apply endsWith_snoc in E as [d ->]. rewrite slice_drop_last.
    rewrite digitsOf_app. cbn. now rewrite app_nil_r.
  - congruence.
  - congruence.
Qed.

Lemma session_disabled_is_inert_witness :
  let es := [user_focus; user_input (str "150") (Some 3%nat); user_blur] in
  disabled (maxHundred true) = true /\
  updateValues (emitted (run (maxHundred true) typingOverMax es))
  = updateValues (emitted typingOverMax) /\
  hasError (run (maxHundred true) typingOverMax es) = false.
Proof.
  intros es.
  destruct (session_disabled_is_inert (maxHundred true) typingOverMax es
              eq_refl) as (H1 & _ & H3).
  split; [reflexivity|]. split; [exact H1|]. now apply H3.
Defined.

End SessionProperties.

(* ===================================================================== *)
(** ** Typing one key at the end of the field *)
(* ===================================================================== *)

Module TypingProperties.
Import JS JSFacts Properties NumberFacts NumericInput SanitizeFacts.
Import SanitizeProperties FormatProperties HandlerProperties.
Import GroupingProperties RoundTripProperties EditingProperties.
Import SessionProperties.


Lemma normalized_separator (k : char) :
  (isDot k || isComma k)%bool = true -> normalized [k] = [DOT].
Proof.
  intros Hk. unfold normalized, replaceEach. cbn [flat_map app].
  destruct (isComma k) eqn:Ec; [reflexivity|].
  rewrite orb_false_r in Hk. cbn [flat_map app]. rewrite Hk.
  rewrite orb_true_r. cbn. apply eqc_eq in Hk. now subst k.
Qed.

Lemma sanitize_typed_after_display (props : Props) (c typed : jsstring) :
  CleanedShape c ->
  sanitize props (formatFromCleaned c ++ typed)
  = sanitize props (c ++ normalized typed).
Proof.
  intros Hs. apply sanitize_normalized.
  rewrite !normalized_app, (normalized_formatFromCleaned c Hs).
  rewrite (normalized_id c (shape_chars c Hs)). f_equal.
  symmetry. apply normalized_id, normalized_chars.
Qed.

(** X20: on a field that is not disabled and whose [maxLength], if any,
    is not negative, an edit that leaves no digit, dot or comma (in
    particular one that empties the field) is always accepted: the
    display becomes empty, the error flag is cleared and [null] is
    emitted. *)
Theorem clearing_is_accepted (props : Props) (st : State) :
  disabled props = false ->
  match maxLength props with Some l => 0 <= l | None => True end ->
  forallb (fun c => negb (isDigit c || isDot c || isComma c))
    (value (input st)) = true ->
  displayValue (onInput props st) = [] /\
  hasError (onInput props st) = false /\
  emitted (onInput props st) = emitted st ++ [update_modelValue None].
Proof.
  intros Hd Hl Hraw.
  assert (Hn : normalized (value (input st)) = []).
  { induction (value (input st)) as [|x s IH]; [reflexivity|].
    cbn [forallb] in Hraw. apply andb_true_iff in Hraw as [Hx Hs].
    change (x :: s) with ([x] ++ s). rewrite normalized_app, (IH Hs).
    rewrite app_nil_r. apply negb_true_iff in Hx.
    apply orb_false_iff in Hx as [Hx Hc].
    unfold normalized, replaceEach. cbn [flat_map app]. rewrite Hc.
    cbn [flat_map app]. now rewrite Hx. }
  assert (Hsan : sanitize props (value (input st)) =
                 {| cleaned := []; numericValue := None |}).
  { rewrite (sanitize_normalized props _ []) by exact Hn.
    unfold sanitize. now destruct (type props). }
  destruct (onInput_cases props st)
    as [[Hx _]|[(_ & Hc & _)|(_ & _ & H1 & H2 & H3)]].
  - congruence.
  - rewrite Hsan in Hc. cbn [cleaned numericValue] in Hc.
    unfold checkLimit, limitType in Hc.
    destruct (max props); [discriminate|].
    destruct (maxLength props) as [l|]; [|discriminate].
    cbn in Hc. destruct (Z.gtb_spec 0 l); [lia|discriminate].
  - rewrite Hsan in H1, H2. now repeat split.
Qed.

Lemma clearing_is_accepted_witness :
  let st := {| displayValue := str "150"; isFocused := true;
               hasError := true;
               input := {| value := str ""; selectionStart := Some 0%nat |};
               emitted := []; widthUpdatePending := false |} in
  disabled (maxHundred false) = false /\
  displayValue (onInput (maxHundred false) st) = [] /\
  emitted (onInput (maxHundred false) st) = [update_modelValue None].
Proof.
  intros st.
  destruct (clearing_is_accepted (maxHundred false) st eq_refl I eq_refl)
    as (H1 & _ & H3).
  split; [reflexivity|]. split; [exact H1|exact H3].
Defined.



(** X22: on a decimal field, a dot or a comma typed at the end of a
    display without a dot appends a dot to the cleaned string, which the
    display then shows. *)
Theorem separator_typed_at_end (props : Props) (c : jsstring) (k : char) :
  type props = decimal ->
  allDigits c = true ->
  (isDot k || isComma k)%bool = true ->
  let c' := cleaned (sanitize props (formatFromCleaned c ++ [k])) in
  c' = c ++ [DOT] /\
  formatFromCleaned c' = formatFromCleaned c ++ [DOT] /\
  numericValue (sanitize props (formatFromCleaned c ++ [k]))
  = parseCleaned c.
Proof.
  intros Ht Hc Hk c'. subst c'.
  rewrite (sanitize_typed_after_display props c [k] (shape_digits c Hc)).
  rewrite (normalized_separator k Hk).
  assert (E : cleaned (sanitize props (c ++ [DOT])) = c ++ [DOT]).
  { rewrite (cleaned_decimal_split props (c ++ [DOT]) c [] Ht).
    - change (replaceEach isDot [] []) with (@nil char).
      unfold slice. now rewrite skipn_nil, firstn_nil.
    - apply normalized_id. now apply fraction_digitOrDot.
    - now apply digits_no_dot. }
  rewrite numericValue_parseCleaned, E. split; [reflexivity|]. split.
  - rewrite (formatFromCleaned_fraction c [] Hc).
    now rewrite (formatFromCleaned_digits c Hc).
  - rewrite <- (parseDisplay_formatFromCleaned (c ++ [DOT]))
      by now apply shape_fraction.
    rewrite <- (parseDisplay_formatFromCleaned c)
      by now apply shape_digits.
    rewrite (formatFromCleaned_fraction c [] Hc).
    rewrite (formatFromCleaned_digits c Hc).
    apply parseDisplay_trailing_dot. now apply insertSpaces_chars.
Qed.

Lemma separator_typed_at_end_witness :
  type defaultProps = decimal /\
  allDigits (str "1234567") = true /\
  formatFromCleaned
    (cleaned (sanitize defaultProps
                (formatFromCleaned (str "1234567") ++ [chr ","])))
  = str "1 234 567." /\
  numericValue (sanitize defaultProps
                  (formatFromCleaned (str "1234567") ++ [chr ","]))
  = Some (Number (str "1234567")).
Proof.
  destruct (separator_typed_at_end defaultProps (str "1234567") (chr ",")
              eq_refl eq_refl eq_refl) as (_ & H2 & H3).
  split; [reflexivity|]. split; [reflexivity|]. split.
  - rewrite H2. vm_compute. reflexivity.
  - rewrite H3. vm_compute. reflexivity.
Defined.

End TypingProperties.
